(** * Linear forecasting entry point: windowing, prediction and plotting

    A shallow embedding of [linear-forecasting/main.py]: the NumPy views the
    entry point builds over the held-out series, the calls it makes into the
    forecasting model, the metrics it prints and the series it plots. *)

From Stdlib Require Import ZArith List Lia Bool String Reals Lra.
From mathcomp Require ssreflect ssrfun ssrbool eqtype ssrnat seq choice fintype
  bigop order ssralg ssrnum matrix mxalgebra rat ring_tactic arithmetic_tactic.
Import ListNotations.

Set Implicit Arguments.

(** ** Exceptions and results *)

(** The Python exceptions that the modelled code can raise. *)
Inductive error : Type :=
| ValueError
| IndexError
| AxisError
| TypeError
| InsufficientDataError
| DimensionMismatchError
| SingularMatrixError.

Inductive result (X : Type) : Type :=
| Ok (x : X)
| Err (e : error).

Arguments Ok {X} x.
Arguments Err {X} e.

Definition rbind {X Y : Type} (r : result X) (k : X -> result Y) : result Y :=
  match r with
  | Ok x => k x
  | Err e => Err e
  end.

Declare Scope result_scope.
Delimit Scope result_scope with result.
Notation "'let?' x ':=' r 'in' k" := (rbind r (fun x => k))
  (at level 10, x name, r at level 100, k at level 200) : result_scope.

Definition is_err {X : Type} (r : result X) : bool :=
  match r with
  | Ok _ => false
  | Err _ => true
  end.

(** ** NumPy arrays as strided views *)

Module Np.

Local Open Scope Z_scope.
Local Open Scope result_scope.

Section Ndarray.

Variable A : Type.

(** An [ndarray] is a view: a memory block, the position of the element
    with index [(0, ..., 0)], one extent per axis and one stride per axis.
    Strides count items, not bytes. *)
Record ndarray : Type := mk_ndarray {
  base : Z -> A;
  offset : Z;
  shape : list nat;
  strides : list Z
}.

Definition ndim (a : ndarray) : nat := List.length (shape a).

(** [numpy.lib.stride_tricks.sliding_window_view(x, window, axis=0)]:
    the extent of axis 0 is trimmed by [window - 1], a new last axis of
    extent [window] is appended, and that axis walks memory with the stride
    of axis 0.  A window larger than the axis raises [ValueError]. *)
Definition sliding_window_view (x : ndarray) (window : nat) : result ndarray :=
  match shape x, strides x with
  | d0 :: ds, s0 :: ss =>
      if (d0 <? window)%nat then Err ValueError
      else Ok (mk_ndarray (base x) (offset x)
                 ((d0 + 1 - window)%nat :: ds ++ [window])
                 (s0 :: ss ++ [s0]))
  | _, _ => Err AxisError
  end.

(** [a[:, :, :stop]] for a non-negative [stop]. *)
Definition slice_axis2_to (a : ndarray) (stop : nat) : result ndarray :=
  match shape a, strides a with
  | d0 :: d1 :: d2 :: ds, s0 :: s1 :: s2 :: ss =>
      Ok (mk_ndarray (base a) (offset a)
            (d0 :: d1 :: Nat.min stop d2 :: ds) (s0 :: s1 :: s2 :: ss))
  | _, _ => Err IndexError
  end.

(** [a[:, :, start:]] for a non-negative [start]. *)
Definition slice_axis2_from (a : ndarray) (start : nat) : result ndarray :=
  match shape a, strides a with
  | d0 :: d1 :: d2 :: ds, s0 :: s1 :: s2 :: ss =>
      let b := Nat.min start d2 in
      Ok (mk_ndarray (base a) (offset a + Z.of_nat b * s2)
            (d0 :: d1 :: (d2 - b)%nat :: ds) (s0 :: s1 :: s2 :: ss))
  | _, _ => Err IndexError
  end.

(** An integer index on an axis of extent [d]: negative indices count from
    the end, anything outside [-d, d) raises [IndexError]. *)
Definition norm_index (d : nat) (i : Z) : result nat :=
  if (0 <=? i) && (i <? Z.of_nat d) then Ok (Z.to_nat i)
  else if (- Z.of_nat d <=? i) && (i <? 0) then Ok (Z.to_nat (i + Z.of_nat d))
  else Err IndexError.

(** [a[i]]: the sub-view at integer index [i] of axis 0. *)
Definition item (a : ndarray) (i : Z) : result ndarray :=
  match shape a, strides a with
  | d0 :: ds, s0 :: ss =>
      let? k := norm_index d0 i in
      Ok (mk_ndarray (base a) (offset a + Z.of_nat k * s0) ds ss)
  | _, _ => Err IndexError
  end.

(** [a[i, j, :]] on an array with at least three axes is [a[i][j]]. *)
Definition item2 (a : ndarray) (i j : Z) : result ndarray :=
  match shape a with
  | _ :: _ :: _ :: _ => let? r := item a i in item r j
  | _ => Err IndexError
  end.

(** The memory position of the item at a full index. *)
Fixpoint position (pos : Z) (sh : list nat) (st : list Z) (idx : list Z)
    : result Z :=
  match sh, st, idx with
  | [], [], [] => Ok pos
  | d :: sh', s :: st', i :: idx' =>
      let? k := norm_index d i in
      position (pos + Z.of_nat k * s) sh' st' idx'
  | _, _, _ => Err IndexError
  end.

Definition addr (a : ndarray) (idx : list Z) : result Z :=
  position (offset a) (shape a) (strides a) idx.

(** [a[i0, ..., ik]] with one integer per axis: the scalar stored there. *)
Definition get (a : ndarray) (idx : list Z) : result A :=
  let? p := addr a idx in Ok (base a p).

(** Two indexed items are the same memory cell of the same block: this
    is what it means for one array to be a view of the other there. *)
Definition aliases (a : ndarray) (ia : list Z) (b : ndarray) (ib : list Z)
    : Prop :=
  base a = base b /\
  exists p : Z, addr a ia = Ok p /\ addr b ib = Ok p.

(** What iterating an array yields: scalars for a one-dimensional array,
    sub-arrays along axis 0 otherwise. *)
Inductive pyitem : Type :=
| Scalar (x : A)
| SubArray (a : ndarray).

(** [iter(a)], which is what [list.extend(a)] consumes.  A zero-dimensional
    array is not iterable. *)
Definition iterate (a : ndarray) : result (list pyitem) :=
  match shape a, strides a with
  | [d], [s] =>
      Ok (map (fun k => Scalar (base a (offset a + Z.of_nat k * s))) (seq 0 d))
  | d :: ds, s :: ss =>
      Ok (map (fun k =>
                 SubArray (mk_ndarray (base a) (offset a + Z.of_nat k * s) ds ss))
              (seq 0 d))
  | _, _ => Err TypeError
  end.

(** [a.shape[0]] *)
Definition shape0 (a : ndarray) : result nat :=
  match shape a with
  | d0 :: _ => Ok d0
  | [] => Err IndexError
  end.

(** A two-dimensional array [(time, variables)] over a memory block. *)
Definition array2 (m : Z -> A) (off : Z) (T V : nat) (s0 s1 : Z) : ndarray :=
  mk_ndarray m off [T; V] [s0; s1].

End Ndarray.

(** [range(n)] *)
Definition range (n : Z) : list Z := map Z.of_nat (seq 0 (Z.to_nat n)).

End Np.

(** ** The entry point, [main.py] *)

Module Main.

Import Np.
Local Open Scope result_scope.

(** A dataset split as the entry point uses it: only [.data] is read. *)
Record Dataset (F : Type) : Type := mk_Dataset {
  data : ndarray F
}.

Section Views.

Variable F : Type.

(** Line 58. *)
Definition test_instances (test_data : ndarray F)
    (context_length horizon : nat) : result (ndarray F) :=
  sliding_window_view test_data (context_length + horizon).

(** Lines 59 and 60. *)
Definition X (instances : ndarray F) (context_length : nat)
    : result (ndarray F) :=
  slice_axis2_to instances context_length.

Definition y (instances : ndarray F) (context_length : nat)
    : result (ndarray F) :=
  slice_axis2_from instances context_length.

(** Window [i] of [instances] reads time step [t] of [series]: one of its
    [W] slots is, for each of the [V] variables, the cell of the series at
    time [t]. *)
Definition window_reads (instances series : ndarray F) (V W i t : nat)
    : Prop :=
  exists k : nat,
    (k < W)%nat /\
    forall v : nat, (v < V)%nat ->
      aliases instances [Z.of_nat i; Z.of_nat v; Z.of_nat k]
              series [Z.of_nat t; Z.of_nat v].

(** The array has a time axis, of fewer than [n] steps. *)
Definition fewer_time_steps (d : ndarray F) (n : nat) : Prop :=
  exists (T : nat) (ds : list nat), shape d = T :: ds /\ (T < n)%nat.

(** The items that [a[i, -1, :]] yields when iterated, for a
    three-dimensional [a] given by its parts. *)
Definition last_var_items (m : Z -> F) (off : Z) (V H : nat) (s0 s1 s2 : Z)
    (i : nat) : list (pyitem F) :=
  map (fun k => Scalar (m (off + Z.of_nat i * s0 + Z.of_nat (V - 1) * s1
                           + Z.of_nat k * s2)%Z))
      (seq 0 H).

(** How many windows are held back from the plot (line 71). *)
Definition plot_holdback : Z := 778.

(** Lines 69-77: the body of the loop, run over the given indices.  The
    accumulators are the lists [p] and [t]. *)
Fixpoint plot_loop (idxs : list Z) (yv preds : ndarray F)
    (p t : list (pyitem F)) : result (list (pyitem F) * list (pyitem F)) :=
  match idxs with
  | [] => Ok (p, t)
  | i :: rest =>
      let? y_last_var := item2 yv i (-1) in
      let? preds_last_var := item2 preds i (-1) in
      let? ty := iterate y_last_var in
      let? tp := iterate preds_last_var in
      plot_loop rest yv preds (p ++ tp) (t ++ ty)
  end.

Definition plot_series (yv preds : ndarray F)
    : result (list (pyitem F) * list (pyitem F)) :=
  let? n := shape0 yv in
  plot_loop (range (Z.of_nat n - plot_holdback)) yv preds [] [].

End Views.

(** What the script imports and does not define.  Every call into the
    forecasting package may read and advance NumPy's process-wide random
    state, and may raise. *)
Record Externals : Type := mk_Externals {
  float : Type;
  rng_state : Type;
  (** the state that [np.random.seed(s)] installs *)
  seeded : Z -> rng_state;
  model : Type;
  (** [data.datasets.dataset_selector] *)
  dataset_selector :
    string -> nat -> nat -> string -> option string -> float -> float ->
    rng_state -> rng_state * result (Dataset float * Dataset float * Dataset float);
  (** [model.OLS(...)], the constructor, which fits *)
  OLS :
    ndarray float -> nat -> nat -> bool -> bool -> float -> bool ->
    option Z -> option Z ->
    rng_state -> rng_state * result model;
  (** [model.predict] *)
  predict : model -> ndarray float -> rng_state -> rng_state * result (ndarray float);
  (** [np.mean((y - preds) ** 2)] and [np.mean(np.abs(y - preds))] *)
  mean_squared_error : ndarray float -> ndarray float -> result float;
  mean_absolute_error : ndarray float -> ndarray float -> result float
}.

Section EntryPoint.

Variable E : Externals.

Let F : Type := float E.

(** The parsed command line. *)
Record args : Type := mk_args {
  dataset : string;
  root : string;
  custom_csv_filename : option string;
  custom_train_percentage : F;
  custom_test_percentage : F;
  context_length : nat;
  horizon : nat;
  alpha : F;
  instance_norm : bool;
  individual : bool;
  seed : option Z;
  max_train_N : option Z
}.

(** What a run does that can be observed from outside, in order. *)
Inductive event : Type :=
| EvNpRandomSeed (s : Z)
| EvCallDatasetSelector
| EvCallOLS (ols_seed : option Z)
| EvCallPredict (X : ndarray F)
| EvPrintSummary (name : string) (use_in indiv : bool) (a : F)
    (C H : nat) (mse mae : F)
| EvPrintShapes (preds_shape y_shape : list nat)
| EvPlot (label : string) (n_x : nat) (ys : list (pyitem F)).

(** The process: NumPy's global random state and what was observed so far. *)
Record world : Type := mk_world {
  rng : rng_state E;
  log : list event
}.

Definition M (X : Type) : Type := world -> world * result X.

Definition ret {X : Type} (x : X) : M X := fun w => (w, Ok x).

Definition bind {X Y : Type} (c : M X) (k : X -> M Y) : M Y :=
  fun w =>
    match c w with
    | (w', Ok x) => k x w'
    | (w', Err e) => (w', Err e)
    end.

Definition lift {X : Type} (r : result X) : M X := fun w => (w, r).

Definition emit (ev : event) : M unit :=
  fun w => (mk_world (rng w) (log w ++ [ev]), Ok tt).

(** A call into imported code: it sees and may change the random state. *)
Definition extern {X : Type} (f : rng_state E -> rng_state E * result X) : M X :=
  fun w => let (g, r) := f (rng w) in (mk_world g (log w), r).

Notation "x <- c ;; k" := (bind c (fun x => k))
  (at level 61, c at next level, right associativity).
Notation "c ;; k" := (bind c (fun _ => k))
  (at level 61, right associativity).

(** [np.random.seed(s)]: the legacy seeding accepts [0 <= s < 2**32] and
    replaces the process-wide state. *)
Definition np_random_seed (s : Z) : M unit :=
  fun w =>
    if ((0 <=? s) && (s <? 2 ^ 32))%Z
    then (mk_world (seeded E s) (log w ++ [EvNpRandomSeed s]), Ok tt)
    else (w, Err ValueError).

(** Lines 35-36. *)
Definition housekeeping (a : args) : M unit :=
  match seed a with
  | Some s => np_random_seed s
  | None => ret tt
  end.

(** Lines 80-88: both series are drawn against [np.arange(len(t))];
    matplotlib refuses a series whose length differs from that of the x
    axis.  Titles, labels and the legend are not modelled. *)
Definition draw (p t : list (pyitem F)) : M unit :=
  emit (EvPlot "True values" (List.length t) t) ;;
  if Nat.eqb (List.length p) (List.length t)
  then emit (EvPlot "Predicted values" (List.length t) p)
  else lift (Err ValueError).

(** Lines 47-88, once the splits are loaded. *)
Definition evaluate (a : args) (dataset_train dataset_test : Dataset F)
    : M unit :=
  emit (EvCallOLS (seed a)) ;;
  mdl <- extern (OLS E (data dataset_train) (context_length a) (horizon a)
                   (instance_norm a) (individual a) (alpha a) false
                   (seed a) (max_train_N a)) ;;
  instances <- lift (test_instances (data dataset_test)
                       (context_length a) (horizon a)) ;;
  Xv <- lift (X instances (context_length a)) ;;
  yv <- lift (y instances (context_length a)) ;;
  emit (EvCallPredict Xv) ;;
  preds <- extern (predict E mdl Xv) ;;
  mse <- lift (mean_squared_error E yv preds) ;;
  mae <- lift (mean_absolute_error E yv preds) ;;
  emit (EvPrintSummary (dataset a) (instance_norm a) (individual a) (alpha a)
          (context_length a) (horizon a) mse mae) ;;
  emit (EvPrintShapes (shape preds) (shape yv)) ;;
  pt <- lift (plot_series yv preds) ;;
  draw (fst pt) (snd pt).

(** Lines 39-44. *)
Definition datasets_and_loaders (a : args)
    : M (Dataset F * Dataset F * Dataset F) :=
  emit EvCallDatasetSelector ;;
  extern (dataset_selector E (dataset a) (context_length a) (horizon a)
            (root a) (custom_csv_filename a) (custom_train_percentage a)
            (custom_test_percentage a)).

(** The whole script. *)
Definition main (a : args) : M unit :=
  housekeeping a ;;
  splits <- datasets_and_loaders a ;;
  evaluate a (fst (fst splits)) (snd splits).

(** Events that happen before any prediction exists: seeding, loading and
    constructing.  A run made only of these called no [predict], printed
    nothing and drew nothing. *)
Definition is_setup_event (ev : event) : bool :=
  match ev with
  | EvNpRandomSeed _ | EvCallDatasetSelector | EvCallOLS _ => true
  | _ => false
  end.

End EntryPoint.

(** A small instance of the imported code, to run the script on: floats
    and random states are integers, the loader returns three times the same
    contiguous [(T, V)] series whose cell [(t, v)] holds [t * V + v], the
    constructor returns a model without fitting, [predict] returns its
    input, and both metrics are zero. *)
Definition toy_series (T V : nat) : ndarray Z :=
  array2 (fun z : Z => z) 0 T V (Z.of_nat V) 1.

Definition toy_externals (T V : nat) : Externals :=
  {| float := Z;
     rng_state := Z;
     seeded := fun s => s;
     model := unit;
     dataset_selector := fun _ _ _ _ _ _ _ g =>
       (g, Ok (mk_Dataset (toy_series T V), mk_Dataset (toy_series T V),
               mk_Dataset (toy_series T V)));
     OLS := fun _ _ _ _ _ _ _ _ _ g => (g, Ok tt);
     predict := fun _ Xv g => (g, Ok Xv);
     mean_squared_error := fun _ _ => Ok 0%Z;
     mean_absolute_error := fun _ _ => Ok 0%Z |}.

Definition toy_args (T V C H : nat) (sd : option Z) : args (toy_externals T V) :=
  @mk_args (toy_externals T V) "custom" "data/" (Some "o3.csv"%string)
    9%Z 1%Z C H 0%Z true true sd None.

Definition toy_world (T V : nat) (g : Z) : world (toy_externals T V) :=
  @mk_world (toy_externals T V) g [].

End Main.

(** ** The forecasting engine

    [model.py] is not part of the sources at hand; the engine is modelled
    from its specification, over the real numbers. *)

Module Forecast.

Local Open Scope R_scope.
Local Open Scope result_scope.

(** Modelled from the spec: the model configuration of section 3, which
    replaces the constructor arguments of the missing [OLS] class. *)
Record config : Type := mk_config {
  context_length : nat;
  horizon : nat;
  instance_norm : bool;
  individual : bool;
  alpha : R;
  max_train_N : option nat;
  seed : option Z
}.

(** Modelled from the spec: a Series is a real-valued array indexed
    (time, variable); the missing loader produces it.  [observations] holds
    one row per time step. *)
Record Series : Type := mk_Series {
  variables : nat;
  observations : list (list R)
}.

Definition time_length (s : Series) : nat := List.length (observations s).

(** Modelled from the spec: a window instance is a pair (context, target),
    of shapes (variables, context_length) and (variables, horizon). *)
Record Window : Type := mk_Window {
  context : list (list R);
  target : list (list R)
}.

(** *** WindowExtractor *)

(** Modelled from the spec: section 4.1, in place of the windowing of the
    missing [OLS] class.  Instance [i] spans time steps [i, i+C+H);
    context = instance[:, :C], target = instance[:, C:]. *)
Definition instance_span (s : Series) (C H i : nat) : list (list R) :=
  map (fun v => map (fun row => nth v row 0)
                    (firstn (C + H) (skipn i (observations s))))
      (seq 0 (variables s)).

Definition instance (s : Series) (C H i : nat) : Window :=
  {| context := map (firstn C) (instance_span s C H i);
     target := map (skipn C) (instance_span s C H i) |}.

(** Modelled from the spec: all N = T - C - H + 1 instances, or
    [InsufficientDataError] when T < C + H. *)
Definition extract (s : Series) (C H : nat) : result (list Window) :=
  if (time_length s <? C + H)%nat then Err InsufficientDataError
  else Ok (map (instance s C H) (seq 0 (time_length s - (C + H) + 1))).

(** Modelled from the spec: the sub-selection under [max_train_N]; of the
    two policies the specification allows, this is truncation to the first
    [max_train_N] instances. *)
Definition truncate (limit : option nat) (ws : list Window) : list Window :=
  match limit with
  | Some n => firstn n ws
  | None => ws
  end.

(** *** InstanceNormalizer *)

Section Normalizer.

(** The numerical floor of the scale. *)
Variable eps : R.

Record stats : Type := mk_stats {
  mean : R;
  scale : R
}.

Definition sum (xs : list R) : R := fold_right Rplus 0 xs.

Definition average (xs : list R) : R := sum xs / INR (List.length xs).

Definition std (xs : list R) : R :=
  sqrt (average (map (fun x => (x - average xs) * (x - average xs)) xs)).

(** Modelled from the spec: section 4.2.  mean = average of the context
    values, scale = max(std, eps); with instance_norm disabled mean = 0 and
    scale = 1. *)
Definition context_stats (enabled : bool) (ctx : list R) : stats :=
  if enabled
  then {| mean := average ctx; scale := Rmax (std ctx) eps |}
  else {| mean := 0; scale := 1 |}.

Definition forward (st : stats) (x : R) : R := (x - mean st) / scale st.

(** Modelled from the spec: normalize(context, target=None) ->
    (norm_context, norm_target, stats), for one variable of one window. *)
Definition normalize (enabled : bool) (ctx : list R) (tgt : option (list R))
    : list R * option (list R) * stats :=
  let st := context_stats enabled ctx in
  (map (forward st) ctx, option_map (map (forward st)) tgt, st).

(** Modelled from the spec: raw_value = norm_value * scale + mean. *)
Definition denormalize (norm_value : list R) (st : stats) : list R :=
  map (fun v => v * scale st + mean st) norm_value.

(** A whole window: each variable on its own. *)
Definition normalize_window (enabled : bool) (w : Window) : Window :=
  let normed :=
    map (fun ct => normalize enabled (fst ct) (Some (snd ct)))
        (combine (context w) (target w)) in
  {| context := map (fun r => fst (fst r)) normed;
     target := map (fun r => match snd (fst r) with
                             | Some t => t
                             | None => []
                             end) normed |}.

End Normalizer.

(** *** Weight matrices *)

(** Modelled from the spec: a weight matrix maps context_length inputs to
    horizon outputs; the optional bias is left out. *)
Record matrix : Type := mk_matrix {
  nrows : nat;
  ncols : nat;
  entry : nat -> nat -> R
}.

Definition matrix_of_rows (width : nat) (rows : list (list R)) : matrix :=
  {| nrows := List.length rows;
     ncols := width;
     entry := fun i j => nth j (nth i rows []) 0 |}.

(** The row vector [x] times [W]. *)
Definition apply_weights (W : matrix) (x : list R) : list R :=
  map (fun j => sum (map (fun k => nth k x 0 * entry W k j) (seq 0 (nrows W))))
      (seq 0 (ncols W)).

(** Modelled from the spec: section 9, the fitted parameters are a tagged
    variant. *)
Inductive weights : Type :=
| Shared (W : matrix)
| PerVariable (Ws : list matrix).

Record ForecastModel : Type := mk_ForecastModel {
  model_config : config;
  model_weights : weights
}.

(** *** ForecastModel *)

Section Model.

Variable eps : R.

(** Modelled from the spec: section 4.3's estimator as the fitting step
    sees it, a map from a design matrix (N, C), a target matrix (N, H) and
    alpha to a weight matrix, which may fail. *)
Variable estimator : matrix -> matrix -> R -> result matrix.

(** Modelled from the spec: the shapes in the estimator's contract
    (section 4.3): from X of shape (N, C) and y of shape (N, H) it returns
    a weight matrix of shape (C, H). *)
Definition returns_weight_shape : Prop :=
  forall (Xm ym : matrix) (a : R) (W : matrix),
    estimator Xm ym a = Ok W ->
    nrows W = ncols Xm /\ ncols W = ncols ym.

Fixpoint collect {X : Type} (rs : list (result X)) : result (list X) :=
  match rs with
  | [] => Ok []
  | r :: rest =>
      let? x := r in
      let? xs := collect rest in
      Ok (x :: xs)
  end.

(** The samples of one variable, one per window. *)
Definition variable_rows (part : Window -> list (list R)) (v : nat)
    (ws : list Window) : list (list R) :=
  map (fun w => nth v (part w) []) ws.

(** The samples of all variables pooled. *)
Definition pooled_rows (part : Window -> list (list R)) (ws : list Window)
    : list (list R) :=
  flat_map part ws.

(** Modelled from the spec: section 4.4, fit: windows, truncation,
    normalization, then one estimation (shared) or one per variable. *)
Definition fit (cfg : config) (training_series : Series)
    : result ForecastModel :=
  let C := context_length cfg in
  let H := horizon cfg in
  let? windows := extract training_series C H in
  let normed :=
    map (normalize_window eps (instance_norm cfg))
        (truncate (max_train_N cfg) windows) in
  if individual cfg then
    let? Ws :=
      collect
        (map (fun v =>
                estimator (matrix_of_rows C (variable_rows context v normed))
                          (matrix_of_rows H (variable_rows target v normed))
                          (alpha cfg))
             (seq 0 (variables training_series))) in
    Ok {| model_config := cfg; model_weights := PerVariable Ws |}
  else
    let? W :=
      estimator (matrix_of_rows C (pooled_rows context normed))
                (matrix_of_rows H (pooled_rows target normed))
                (alpha cfg) in
    Ok {| model_config := cfg; model_weights := Shared W |}.

(** The weights that serve variable [v]. *)
Definition weights_for (m : ForecastModel) (v : nat) : option matrix :=
  match model_weights m with
  | Shared W => Some W
  | PerVariable Ws => nth_error Ws v
  end.

(** A batch of shape [(B, V, L)]. *)
Definition has_shape (X : list (list (list R))) (B V L : nat) : Prop :=
  List.length X = B /\
  Forall (fun w => List.length w = V /\
                   Forall (fun x => List.length x = L) w) X.

(** Modelled from the spec: what fitting establishes (section 3): every
    weight matrix has shape context_length x horizon, and a per-variable
    model holds one matrix per variable. *)
Definition fitted (m : ForecastModel) (V : nat) : Prop :=
  let C := context_length (model_config m) in
  let H := horizon (model_config m) in
  match model_weights m with
  | Shared W => nrows W = C /\ ncols W = H
  | PerVariable Ws =>
      List.length Ws = V /\ Forall (fun W => nrows W = C /\ ncols W = H) Ws
  end.

(** One variable of one window: normalize with the window's own
    statistics, apply the weights, denormalize. *)
Definition predict_variable (enabled : bool) (W : matrix) (x : list R)
    : list R :=
  let st := context_stats eps enabled x in
  denormalize (apply_weights W (map (forward st) x)) st.

Definition has_context_length (C : nat) (X : list (list (list R))) : bool :=
  forallb (forallb (fun x => Nat.eqb (List.length x) C)) X.

Definition has_variables (V : nat) (X : list (list (list R))) : bool :=
  forallb (fun w => Nat.eqb (List.length w) V) X.

(** Modelled from the spec: section 4.4, predict, with its failure
    conditions: [DimensionMismatchError] when the last dimension of [X] is
    not context_length, or, in individual mode, when the variable count
    differs from what was fit. *)
Definition predict (m : ForecastModel) (X : list (list (list R)))
    : result (list (list (list R))) :=
  let cfg := model_config m in
  if negb (has_context_length (context_length cfg) X)
  then Err DimensionMismatchError
  else
    match model_weights m with
    | Shared W =>
        Ok (map (map (predict_variable (instance_norm cfg) W)) X)
    | PerVariable Ws =>
        if has_variables (List.length Ws) X
        then Ok (map (fun w =>
                        map (fun Wx => predict_variable (instance_norm cfg)
                                         (fst Wx) (snd Wx))
                            (combine Ws w)) X)
        else Err DimensionMismatchError
    end.

End Model.

End Forecast.

(** ** The closed-form estimator

    Matrices over an arbitrary ordered field, so that the statements do
    not depend on how real numbers are represented. *)

Module ClosedFormEstimator.

Import ssreflect ssrfun ssrbool eqtype ssrnat seq choice fintype bigop.
Import order ssralg ssrnum matrix mxalgebra.
Import Order.Theory GRing.Theory Num.Theory.
Local Open Scope ring_scope.

Section Estimator.

Variable F : realFieldType.
Variables N C H : nat.

(** The matrix of the regularized normal equations, XᵀX + alpha·I. *)
Definition gram (X : 'M[F]_(N, C)) (alpha : F) : 'M[F]_C :=
  X^T *m X + alpha *: 1%:M.

(** Modelled from the spec: section 4.3, fit(X, y, alpha) -> W with
    W = (XᵀX + alpha·I)⁻¹Xᵀy, in place of the solve of the missing [OLS]
    class; a matrix that has no inverse is reported as
    [SingularMatrixError] (section 7). *)
Definition fit (X : 'M[F]_(N, C)) (y : 'M[F]_(N, H)) (alpha : F)
    : result 'M[F]_(C, H) :=
  if gram X alpha \in unitmx
  then Ok (invmx (gram X alpha) *m X^T *m y)
  else Err SingularMatrixError.

(** Modelled from the spec: the ordinary least squares solution,
    (XᵀX)⁻¹Xᵀy. *)
Definition ols (X : 'M[F]_(N, C)) (y : 'M[F]_(N, H)) : 'M[F]_(C, H) :=
  invmx (X^T *m X) *m X^T *m y.

(** The sum of the squares of the entries. *)
Definition sq_norm (m n : nat) (A : 'M[F]_(m, n)) : F := \tr (A^T *m A).

(** What ridge regression minimizes: the squared residual plus alpha times
    the squared weights.  With alpha = 0 it is the least-squares loss. *)
Definition ridge_loss (X : 'M[F]_(N, C)) (y : 'M[F]_(N, H)) (alpha : F)
    (W : 'M[F]_(C, H)) : F :=
  sq_norm (X *m W - y) + alpha * sq_norm W.

End Estimator.

Arguments gram {F N C} X alpha.
Arguments fit {F N C H} X y alpha.
Arguments ols {F N C H} X y.
Arguments sq_norm {F m n} A.
Arguments ridge_loss {F N C H} X y alpha W.

End ClosedFormEstimator.

(** * Properties *)

(** ** Indexing facts *)

Module NpFacts.

Import Np.
Local Open Scope Z_scope.

Section Facts.

Variable A : Type.

Lemma norm_index_nat (d i : nat) :
  (i < d)%nat -> norm_index d (Z.of_nat i) = Ok i.
Proof.
  intros Hi. unfold norm_index.
  replace (0 <=? Z.of_nat i) with true by (symmetry; apply Z.leb_le; lia).
  replace (Z.of_nat i <? Z.of_nat d) with true by (symmetry; apply Z.ltb_lt; lia).
  simpl. now rewrite Nat2Z.id.
Qed.

Lemma norm_index_last (d : nat) :
  (0 < d)%nat -> norm_index d (-1) = Ok (d - 1)%nat.
Proof.
  intros Hd. unfold norm_index.
  replace (0 <=? -1) with false by reflexivity.
  replace (- Z.of_nat d <=? -1) with true by (symmetry; apply Z.leb_le; lia).
  replace (-1 <? 0) with true by reflexivity.
  cbn [andb]. f_equal. lia.
Qed.

Lemma norm_index_empty (i : Z) : norm_index 0 i = Err IndexError.
Proof.
  unfold norm_index. now destruct i.
Qed.

Lemma norm_index_bound (d : nat) (i : Z) (k : nat) :
  norm_index d i = Ok k -> (k < d)%nat.
Proof.
  unfold norm_index.
  destruct ((0 <=? i) && (i <? Z.of_nat d)) eqn:H1.
  - apply andb_prop in H1 as [Ha Hb].
    apply Z.leb_le in Ha. apply Z.ltb_lt in Hb.
    intros [= <-]. lia.
  - destruct ((- Z.of_nat d <=? i) && (i <? 0)) eqn:H2; [|discriminate].
    apply andb_prop in H2 as [Ha Hb].
    apply Z.leb_le in Ha. apply Z.ltb_lt in Hb.
    intros [= <-]. lia.
Qed.

(** The address of an in-range item of a two- and of a three-dimensional
    view. *)
Lemma addr2 (m : Z -> A) (off : Z) (d0 d1 : nat) (s0 s1 : Z) (i j : nat) :
  (i < d0)%nat -> (j < d1)%nat ->
  addr (mk_ndarray m off [d0; d1] [s0; s1]) [Z.of_nat i; Z.of_nat j]
  = Ok (off + Z.of_nat i * s0 + Z.of_nat j * s1).
Proof.
  intros Hi Hj. unfold addr. simpl.
  rewrite (norm_index_nat Hi). simpl.
  rewrite (norm_index_nat Hj). reflexivity.
Qed.

Lemma addr3 (m : Z -> A) (off : Z) (d0 d1 d2 : nat) (s0 s1 s2 : Z)
    (i j k : nat) :
  (i < d0)%nat -> (j < d1)%nat -> (k < d2)%nat ->
  addr (mk_ndarray m off [d0; d1; d2] [s0; s1; s2])
       [Z.of_nat i; Z.of_nat j; Z.of_nat k]
  = Ok (off + Z.of_nat i * s0 + Z.of_nat j * s1 + Z.of_nat k * s2).
Proof.
  intros Hi Hj Hk. unfold addr. simpl.
  rewrite (norm_index_nat Hi). simpl.
  rewrite (norm_index_nat Hj). simpl.
  rewrite (norm_index_nat Hk). reflexivity.
Qed.

(** Aliased items hold the same value. *)
Lemma aliases_get (a b : ndarray A) (ia ib : list Z) :
  aliases a ia b ib -> get a ia = get b ib /\ is_err (get a ia) = false.
Proof.
  intros [Hb [p [Ha Hp]]]. unfold get. rewrite Ha, Hp, Hb. now split.
Qed.

End Facts.

End NpFacts.

(** ** The sliding-window views of the entry point *)

Module WindowFacts.

Import Np NpFacts Main.
Local Open Scope Z_scope.

Section Windows.

Variable F : Type.
Variables (m : Z -> F) (off : Z) (T V : nat) (s0 s1 : Z).
Variables C H : nat.

Let series : ndarray F := array2 m off T V s0 s1.

Lemma test_instances_ok :
  (C + H <= T)%nat ->
  test_instances series C H
  = Ok (mk_ndarray m off [(T + 1 - (C + H))%nat; V; (C + H)%nat] [s0; s1; s0]).
Proof.
  intros Hlen. unfold test_instances, sliding_window_view, series, array2.
  cbn [shape strides base offset app].
  replace (T <? C + H)%nat with false
    by (symmetry; apply Nat.ltb_ge; exact Hlen).
  reflexivity.
Qed.

Lemma test_instances_short :
  (T < C + H)%nat -> test_instances series C H = Err ValueError.
Proof.
  intros Hlen. unfold test_instances, sliding_window_view, series, array2.
  cbn [shape strides].
  replace (T <? C + H)%nat with true
    by (symmetry; apply Nat.ltb_lt; exact Hlen).
  reflexivity.
Qed.

Lemma X_ok (n : nat) :
  X (mk_ndarray m off [n; V; (C + H)%nat] [s0; s1; s0]) C
  = Ok (mk_ndarray m off [n; V; C] [s0; s1; s0]).
Proof.
  unfold X, slice_axis2_to. cbn [shape strides base offset].
  now rewrite Nat.min_l by lia.
Qed.

Lemma y_ok (n : nat) :
  y (mk_ndarray m off [n; V; (C + H)%nat] [s0; s1; s0]) C
  = Ok (mk_ndarray m (off + Z.of_nat C * s0) [n; V; H] [s0; s1; s0]).
Proof.
  unfold y, slice_axis2_from. cbn [shape strides base offset].
  rewrite Nat.min_l by lia.
  now replace (C + H - C)%nat with H by lia.
Qed.

Lemma instance_cell (n i v k : nat) :
  (i < n)%nat -> (v < V)%nat -> (k < C + H)%nat -> (i + k < T)%nat ->
  aliases (mk_ndarray m off [n; V; (C + H)%nat] [s0; s1; s0])
          [Z.of_nat i; Z.of_nat v; Z.of_nat k]
          series [Z.of_nat (i + k); Z.of_nat v].
Proof.
  intros Hi Hv Hk Ht. split; [reflexivity|].
  exists (off + Z.of_nat i * s0 + Z.of_nat v * s1 + Z.of_nat k * s0).
  split.
  - now apply addr3.
  - unfold series, array2. rewrite addr2 by assumption.
    f_equal. rewrite Nat2Z.inj_add. ring.
Qed.

End Windows.

(** C4. Instance [i] of the held-out series is a view of time steps
    [i, i+C+H): its slot [k] is the series at time [i+k].  [X] is the first
    [C] slots of every instance and [y] the remaining [H], so [X[i, v, k]]
    is the series at time [i+k] and [y[i, v, k]] the series at time
    [i+C+k]. *)
Theorem instance_context_target (F : Type) (m : Z -> F) (off : Z)
    (T V : nat) (s0 s1 : Z) (C H : nat) :
  (C + H <= T)%nat ->
  let series := array2 m off T V s0 s1 in
  let N := (T - C - H + 1)%nat in
  exists instances Xv yv : ndarray F,
    test_instances series C H = Ok instances /\
    X instances C = Ok Xv /\
    y instances C = Ok yv /\
    shape instances = [N; V; (C + H)%nat] /\
    shape Xv = [N; V; C] /\
    shape yv = [N; V; H] /\
    (forall i v k : nat, (i < N)%nat -> (v < V)%nat -> (k < C + H)%nat ->
       aliases instances [Z.of_nat i; Z.of_nat v; Z.of_nat k]
               series [Z.of_nat (i + k); Z.of_nat v]) /\
    (forall i v k : nat, (i < N)%nat -> (v < V)%nat -> (k < C)%nat ->
       aliases Xv [Z.of_nat i; Z.of_nat v; Z.of_nat k]
               instances [Z.of_nat i; Z.of_nat v; Z.of_nat k] /\
       aliases Xv [Z.of_nat i; Z.of_nat v; Z.of_nat k]
               series [Z.of_nat (i + k); Z.of_nat v]) /\
    (forall i v k : nat, (i < N)%nat -> (v < V)%nat -> (k < H)%nat ->
       aliases yv [Z.of_nat i; Z.of_nat v; Z.of_nat k]
               instances [Z.of_nat i; Z.of_nat v; Z.of_nat (C + k)] /\
       aliases yv [Z.of_nat i; Z.of_nat v; Z.of_nat k]
               series [Z.of_nat (i + C + k); Z.of_nat v]).
Proof.
  intros Hlen series N.
  assert (HN : (T + 1 - (C + H))%nat = N) by (unfold N; lia).
  exists (mk_ndarray m off [N; V; (C + H)%nat] [s0; s1; s0]),
         (mk_ndarray m off [N; V; C] [s0; s1; s0]),
         (mk_ndarray m (off + Z.of_nat C * s0) [N; V; H] [s0; s1; s0]).
  repeat split; try reflexivity.
  - unfold series. rewrite test_instances_ok by exact Hlen. now rewrite HN.
  - apply X_ok.
  - apply y_ok.
  - destruct (@instance_cell F m off T V s0 s1 C H N i v k)
      as [_ Hp]; try assumption; unfold N in *; lia.
  - exists (off + Z.of_nat i * s0 + Z.of_nat v * s1 + Z.of_nat k * s0).
    split; apply addr3; try assumption; lia.
  - exists (off + Z.of_nat i * s0 + Z.of_nat v * s1 + Z.of_nat k * s0).
    split; [apply addr3; assumption|].
    unfold series, array2. rewrite addr2 by (unfold N in *; lia).
    f_equal. rewrite Nat2Z.inj_add. ring.
  - exists (off + Z.of_nat C * s0 + Z.of_nat i * s0 + Z.of_nat v * s1
            + Z.of_nat k * s0).
    split; [apply addr3; assumption|].
    rewrite addr3 by (try assumption; lia).
    f_equal. rewrite Nat2Z.inj_add. ring.
  - exists (off + Z.of_nat C * s0 + Z.of_nat i * s0 + Z.of_nat v * s1
            + Z.of_nat k * s0).
    split; [apply addr3; assumption|].
    unfold series, array2. rewrite addr2 by (unfold N in *; lia).
    f_equal. rewrite !Nat2Z.inj_add. ring.
Qed.

Lemma instance_context_target_witness :
  (2 + 1 <= 5)%nat /\
  exists instances Xv yv : ndarray Z,
    test_instances (array2 (fun z => z) 0 5 2 2 1) 2 1 = Ok instances /\
    X instances 2 = Ok Xv /\ y instances 2 = Ok yv /\
    shape Xv = [3%nat; 2%nat; 2%nat] /\ shape yv = [3%nat; 2%nat; 1%nat].
Proof.
  split; [lia|].
  destruct (@instance_context_target Z (fun z => z) 0 5 2 2 1 2 1 ltac:(lia))
    as (i & x & yy & H1 & H2 & H3 & _ & H5 & H6 & _).
  exists i, x, yy. repeat split; assumption.
Defined.

(** C1. When the series has at least [C+H] time steps, the sliding-window
    view has exactly [T-C-H+1] windows; window [i] reads every time step
    of [i, i+C+H), so there is one window per start offset [0 .. T-C-H].
    When moreover [C+H >= 1], the last window reads the last time step and
    every time step of [0, T) is read by some window. *)
Theorem window_count_and_coverage (F : Type) (m : Z -> F) (off : Z)
    (T V : nat) (s0 s1 : Z) (C H : nat) :
  (C + H <= T)%nat ->
  let series := array2 m off T V s0 s1 in
  let N := (T - C - H + 1)%nat in
  exists instances : ndarray F,
    test_instances series C H = Ok instances /\
    shape0 instances = Ok N /\
    shape instances = [N; V; (C + H)%nat] /\
    (forall i t : nat, (i < N)%nat -> (i <= t < i + (C + H))%nat ->
       window_reads instances series V (C + H) i t) /\
    ((1 <= C + H)%nat ->
       window_reads instances series V (C + H) (N - 1) (T - 1) /\
       forall t : nat, (t < T)%nat ->
         exists i : nat, (i < N)%nat /\
           window_reads instances series V (C + H) i t).
Proof.
  intros Hlen series N.
  assert (HN : (T + 1 - (C + H))%nat = N) by (unfold N; lia).
  exists (mk_ndarray m off [N; V; (C + H)%nat] [s0; s1; s0]).
  assert (Hspan : forall i t : nat, (i < N)%nat -> (i <= t < i + (C + H))%nat ->
            window_reads (mk_ndarray m off [N; V; (C + H)%nat] [s0; s1; s0])
              series V (C + H) i t).
  { intros i t Hi Ht. exists (t - i)%nat. split; [lia|].
    intros v Hv.
    replace t with (i + (t - i))%nat at 2 by lia.
    apply instance_cell; try assumption; unfold N in *; lia. }
  split; [|split; [|split; [|split]]].
  - unfold series. rewrite test_instances_ok by exact Hlen. now rewrite HN.
  - reflexivity.
  - reflexivity.
  - exact Hspan.
  - intros Hpos. split.
    + apply Hspan; unfold N; lia.
    + intros t Ht.
      destruct (Nat.le_gt_cases t (N - 1)) as [Hle | Hgt].
      * exists t. split; [unfold N in *; lia|]. apply Hspan; unfold N in *; lia.
      * exists (N - 1)%nat. split; [unfold N; lia|].
        apply Hspan; unfold N in *; lia.
Qed.

Lemma window_count_and_coverage_witness :
  (2 + 1 <= 5)%nat /\
  exists instances : ndarray Z,
    test_instances (array2 (fun z => z) 0 5 2 2 1) 2 1 = Ok instances /\
    shape0 instances = Ok 3%nat.
Proof.
  split; [lia|].
  destruct (@window_count_and_coverage Z (fun z => z) 0 5 2 2 1 2 1 ltac:(lia))
    as (i & H1 & H2 & _).
  exists i. split; assumption.
Defined.

(** C1 as the specification words it fails for empty windows: with
    [C = H = 0] a series of one time step yields two windows of extent
    zero, and no window reads time step 0. *)
Lemma coverage_fails_for_empty_windows :
  let series := array2 (fun z : Z => z) 0 1 1 1 1 in
  (0 + 0 <= 1)%nat /\
  exists instances : ndarray Z,
    test_instances series 0 0 = Ok instances /\
    shape0 instances = Ok (1 - 0 - 0 + 1)%nat /\
    ~ (forall t : nat, (t < 1)%nat ->
         exists i : nat, (i < 1 - 0 - 0 + 1)%nat /\
           window_reads instances series 1 (0 + 0) i t).
Proof.
  split; [lia|].
  eexists. split; [reflexivity|]. split; [reflexivity|].
  intros Hcov. destruct (Hcov 0%nat ltac:(lia)) as (i & _ & k & Hk & _).
  simpl in Hk. lia.
Qed.

End WindowFacts.

(** ** Runs of the entry point *)

Module RunFacts.

Import Np NpFacts Main.

Section Runs.

Variable E : Externals.

Lemma short_series_raises (d : ndarray (float E)) (C H : nat) :
  fewer_time_steps d (C + H) ->
  exists e : error, test_instances d C H = Err e.
Proof.
  intros (T & ds & Hs & Hlt).
  unfold test_instances, sliding_window_view. rewrite Hs.
  destruct (strides d) as [|s0 ss].
  - now exists AxisError.
  - replace (T <? C + H)%nat with true by (symmetry; now apply Nat.ltb_lt).
    now exists ValueError.
Qed.

(** With a short test split, lines 47-88 stop at line 58 when the model was
    constructed, and at line 47 otherwise. *)
Lemma evaluate_short_test (a : args E) (tr te : Dataset (float E)) (w : world E) :
  fewer_time_steps (data te) (context_length a + horizon a) ->
  exists (g : rng_state E) (e : error),
    evaluate a tr te w
    = (mk_world g (log w ++ [EvCallOLS E (seed a)]), Err e) /\
    (forall mdl : model E,
       OLS E (data tr) (context_length a) (horizon a) (instance_norm a)
           (individual a) (alpha a) false (seed a) (max_train_N a) (rng w)
       = (g, Ok mdl) ->
       test_instances (data te) (context_length a) (horizon a) = Err e).
Proof.
  intros Hshort.
  destruct (@short_series_raises (data te) _ _ Hshort) as [e He].
  unfold evaluate, bind, emit, extern, lift. cbn [rng log].
  destruct (OLS E (data tr) (context_length a) (horizon a) (instance_norm a)
              (individual a) (alpha a) false (seed a) (max_train_N a) (rng w))
    as [g [mdl | e']] eqn:Hols.
  - exists g, e. rewrite He. split; [reflexivity|]. intros; reflexivity.
  - exists g, e'. split; [reflexivity|]. intros mdl [=].
Qed.

End Runs.

(** C9. When every test split the loader can return has fewer than
    [context_length + horizon] time steps, a run of the script ends in an
    exception and consists of seeding, loading and constructing only:
    [model.predict] is never called and nothing is printed or drawn.  When
    the run got as far as a constructed model, the exception is the one
    raised by the sliding-window construction of line 58. *)
Theorem short_test_split_never_predicts (E : Externals) (a : args E) :
  (forall (g g' : rng_state E) (tr va te : Dataset (float E)),
     dataset_selector E (dataset a) (context_length a) (horizon a) (root a)
       (custom_csv_filename a) (custom_train_percentage a)
       (custom_test_percentage a) g = (g', Ok (tr, va, te)) ->
     fewer_time_steps (data te) (context_length a + horizon a)) ->
  forall w : world E,
    (exists (w' : world E) (e : error) (evs : list (event E)),
       main a w = (w', Err e) /\
       log w' = log w ++ evs /\
       forallb (@is_setup_event E) evs = true) /\
    (forall (tr te : Dataset (float E)) (g : rng_state E) (mdl : model E),
       fewer_time_steps (data te) (context_length a + horizon a) ->
       OLS E (data tr) (context_length a) (horizon a) (instance_norm a)
           (individual a) (alpha a) false (seed a) (max_train_N a) (rng w)
       = (g, Ok mdl) ->
       exists e : error,
         test_instances (data te) (context_length a) (horizon a) = Err e /\
         evaluate a tr te w
         = (mk_world g (log w ++ [EvCallOLS E (seed a)]), Err e)).
Proof.
  intros Hsel w. split.
  - assert (Hrest : forall w1 : world E,
              exists (w' : world E) (e : error) (evs : list (event E)),
                bind (datasets_and_loaders a)
                     (fun splits => evaluate a (fst (fst splits)) (snd splits))
                     w1 = (w', Err e) /\
                log w' = log w1 ++ evs /\
                forallb (@is_setup_event E) evs = true).
    { intros w1. unfold bind at 1. unfold datasets_and_loaders, bind, emit, extern.
      cbn [rng log].
      destruct (dataset_selector E (dataset a) (context_length a) (horizon a)
                  (root a) (custom_csv_filename a) (custom_train_percentage a)
                  (custom_test_percentage a) (rng w1))
        as [g' [[[tr va] te] | e']] eqn:Hds.
      - destruct (@evaluate_short_test E a tr te
                    (mk_world g' (log w1 ++ [EvCallDatasetSelector E]))
                    (Hsel _ _ _ _ _ Hds)) as (g & e & Hev & _).
        cbn [fst snd]. rewrite Hev. cbn [log].
        exists (mk_world g ((log w1 ++ [EvCallDatasetSelector E])
                            ++ [EvCallOLS E (seed a)])), e,
               [EvCallDatasetSelector E; EvCallOLS E (seed a)].
        split; [reflexivity|]. split; [|reflexivity].
        cbn [log]. now rewrite <- app_assoc.
      - exists (mk_world g' (log w1 ++ [EvCallDatasetSelector E])), e',
               [EvCallDatasetSelector E].
        repeat split. }
    unfold main. unfold bind at 1. unfold housekeeping.
    destruct (seed a) as [s|].
    + unfold np_random_seed.
      destruct ((0 <=? s)%Z && (s <? 2 ^ 32)%Z).
      * destruct (Hrest (mk_world (seeded E s) (log w ++ [EvNpRandomSeed E s])))
          as (w' & e & evs & Hrun & Hlog & Hall).
        rewrite Hrun. exists w', e, (EvNpRandomSeed E s :: evs).
        split; [reflexivity|]. split.
        -- rewrite Hlog. cbn [log]. now rewrite <- app_assoc.
        -- cbn [forallb is_setup_event andb]. exact Hall.
      * exists w, ValueError, []. repeat split. now rewrite app_nil_r.
    + unfold ret. apply Hrest.
  - intros tr te g mdl Hshort Hols.
    destruct (@short_series_raises E (data te) _ _ Hshort) as [e He].
    exists e. split; [exact He|].
    unfold evaluate, bind, emit, extern, lift. cbn [rng log].
    rewrite Hols, He. reflexivity.
Qed.

Lemma short_test_split_never_predicts_witness :
  exists (w' : world (toy_externals 3 1)) (e : error),
    main (toy_args 3 1 2 2 (Some 42%Z)) (toy_world 3 1 0) = (w', Err e).
Proof.
  assert (Hshort : forall (g g' : Z) (tr va te : Dataset Z),
            (g, Ok (mk_Dataset (toy_series 3 1), mk_Dataset (toy_series 3 1),
                    mk_Dataset (toy_series 3 1)))
            = (g', Ok (tr, va, te)) ->
            fewer_time_steps (data te) (2 + 2)).
  { intros g g' tr va te Heq. injection Heq as _ _ _ <-.
    exists 3%nat, [1%nat]. split; [reflexivity | lia]. }
  destruct (@short_test_split_never_predicts (toy_externals 3 1)
              (toy_args 3 1 2 2 (Some 42%Z)) Hshort (toy_world 3 1 0))
    as [(w' & e & evs & Hm & _) _].
  exists w', e. exact Hm.
Defined.

(** C8. A run with a configured seed starts by installing that seed in
    NumPy's process-wide random state, and it hands the same seed to the
    model constructor as an argument (so an exception of the constructor
    called with that seed is the outcome of the run).  Nothing depends on the
    state the process started with: two runs with the same arguments end
    with the same outcome and have printed and drawn the same, and, unless
    the seed is refused, they leave the same random state behind, whatever
    the imported code draws from it. *)
Theorem seeded_run_deterministic (E : Externals) (a : args E) (s : Z) :
  seed a = Some s ->
  (forall w : world E,
     ((0 <=? s) && (s <? 2 ^ 32))%Z = true ->
     housekeeping a w
     = (mk_world (seeded E s) (log w ++ [EvNpRandomSeed E s]), Ok tt)) /\
  (forall w1 w2 : world E,
     log w1 = log w2 ->
     snd (main a w1) = snd (main a w2) /\
     log (fst (main a w1)) = log (fst (main a w2)) /\
     (((0 <=? s) && (s <? 2 ^ 32))%Z = true ->
      rng (fst (main a w1)) = rng (fst (main a w2)))) /\
  (forall (tr te : Dataset (float E)) (w : world E) (g : rng_state E)
          (e : error),
     OLS E (data tr) (context_length a) (horizon a) (instance_norm a)
         (individual a) (alpha a) false (Some s) (max_train_N a) (rng w)
     = (g, Err e) ->
     evaluate a tr te w
     = (mk_world g (log w ++ [EvCallOLS E (Some s)]), Err e)).
Proof.
  intros Hseed. split; [|split].
  - intros w Hrange. unfold housekeeping, np_random_seed.
    now rewrite Hseed, Hrange.
  - intros w1 w2 Hlog.
    unfold main. unfold bind at 1 3 5 7 9 11. unfold housekeeping.
    rewrite Hseed. unfold np_random_seed.
    destruct ((0 <=? s)%Z && (s <? 2 ^ 32)%Z).
    + rewrite Hlog. repeat split.
    + cbn [fst snd]. repeat split; [exact Hlog | discriminate].
  - intros tr te w g e Hols. rewrite <- Hseed in *.
    unfold evaluate, bind, emit, extern. cbn [rng log].
    now rewrite Hols.
Qed.

Lemma seeded_run_deterministic_witness :
  snd (main (toy_args 5 1 2 1 (Some 42%Z)) (toy_world 5 1 0))
  = snd (main (toy_args 5 1 2 1 (Some 42%Z)) (toy_world 5 1 7)).
Proof.
  refine (proj1 (proj1 (proj2 (@seeded_run_deterministic (toy_externals 5 1)
            (toy_args 5 1 2 1 (Some 42%Z)) 42%Z _)) _ _ _)).
  - reflexivity.
  - reflexivity.
Defined.

(** C8 as the specification words it fails: the script does use the
    process-wide random state.  On imported code that never touches that
    state, a seeded run still replaces it. *)
Lemma script_reseeds_process_wide_state :
  let w := toy_world 5 1 0 in
  let w' := fst (main (toy_args 5 1 2 1 (Some 42%Z)) w) in
  rng w' <> rng w /\
  In (EvNpRandomSeed (toy_externals 5 1) 42) (log w').
Proof.
  split.
  - vm_compute. discriminate.
  - vm_compute. left. reflexivity.
Qed.

End RunFacts.

(** ** The plotted series *)

Module PlotFacts.

Import Np NpFacts Main.
Local Open Scope Z_scope.

Section Plot.

Variable F : Type.

Lemma item2_last (m : Z -> F) (off : Z) (N V H : nat) (s0 s1 s2 : Z) (i : nat) :
  (i < N)%nat -> (0 < V)%nat ->
  item2 (mk_ndarray m off [N; V; H] [s0; s1; s2]) (Z.of_nat i) (-1)
  = Ok (mk_ndarray m (off + Z.of_nat i * s0 + Z.of_nat (V - 1) * s1) [H] [s2]).
Proof.
  intros Hi HV. unfold item2, item. cbn [shape strides base offset].
  rewrite (norm_index_nat Hi). cbn [rbind shape strides base offset].
  rewrite (norm_index_last HV). reflexivity.
Qed.

Lemma iterate_row (m : Z -> F) (off : Z) (H : nat) (s : Z) :
  iterate (mk_ndarray m off [H] [s])
  = Ok (map (fun k => Scalar (m (off + Z.of_nat k * s))) (seq 0 H)).
Proof. reflexivity. Qed.

Lemma plot_loop_rows (my mp : Z -> F) (oy op : Z) (N V H N' V' H' : nat)
    (a0 a1 a2 b0 b1 b2 : Z) (n : nat) :
  (0 < V)%nat -> (0 < V')%nat ->
  forall (start : nat) (p t : list (pyitem F)),
    (start + n <= N)%nat -> (start + n <= N')%nat ->
    plot_loop (map Z.of_nat (seq start n))
      (mk_ndarray my oy [N; V; H] [a0; a1; a2])
      (mk_ndarray mp op [N'; V'; H'] [b0; b1; b2]) p t
    = Ok (p ++ flat_map (last_var_items mp op V' H' b0 b1 b2) (seq start n),
          t ++ flat_map (last_var_items my oy V H a0 a1 a2) (seq start n)).
Proof.
  intros HV HV'. induction n as [|n IH]; intros start p t Hy Hp.
  - cbn. now rewrite !app_nil_r.
  - cbn [seq map plot_loop].
    rewrite item2_last by (try assumption; lia).
    cbn [rbind]. rewrite item2_last by (try assumption; lia).
    cbn [rbind]. rewrite !iterate_row. cbn [rbind].
    rewrite IH by lia. cbn [flat_map]. unfold last_var_items at 3 6.
    now rewrite !app_assoc.
Qed.

Lemma range_holdback (N : nat) :
  range (Z.of_nat N - plot_holdback) = map Z.of_nat (seq 0 (N - 778)).
Proof.
  unfold range, plot_holdback. f_equal. f_equal. lia.
Qed.

End Plot.

(** C10. The plotted series hold the last variable of windows
    [0 .. N-778-1] only, for the targets and for the predictions: the final
    778 windows are never read by the loop, and with [N <= 778] both series
    are empty.  The summary line carries the metrics of the complete [y] and
    [preds], all [N] windows, and is printed before the series are built;
    the run then draws what [plot_series] returned or ends in its
    exception. *)
Theorem plot_truncation (E : Externals) (a : args E)
    (tr te : Dataset (float E)) (w : world E)
    (m : Z -> float E) (off : Z) (T V : nat) (s0 s1 : Z)
    (g g' : rng_state E) (mdl : model E) (preds : ndarray (float E))
    (mse mae : float E) :
  let C := context_length a in
  let H := horizon a in
  let N := (T - C - H + 1)%nat in
  let Xv := mk_ndarray m off [N; V; C] [s0; s1; s0] in
  let yv := mk_ndarray m (off + Z.of_nat C * s0) [N; V; H] [s0; s1; s0] in
  data te = array2 m off T V s0 s1 ->
  (C + H <= T)%nat ->
  OLS E (data tr) C H (instance_norm a) (individual a) (alpha a) false
      (seed a) (max_train_N a) (rng w) = (g, Ok mdl) ->
  predict E mdl Xv g = (g', Ok preds) ->
  mean_squared_error E yv preds = Ok mse ->
  mean_absolute_error E yv preds = Ok mae ->
  ((N <= 778)%nat -> plot_series yv preds = Ok ([], [])) /\
  (forall (mp : Z -> float E) (op : Z) (N' V' H' : nat) (b0 b1 b2 : Z),
     preds = mk_ndarray mp op [N'; V'; H'] [b0; b1; b2] ->
     (0 < V)%nat -> (0 < V')%nat -> (N - 778 <= N')%nat ->
     plot_series yv preds
     = Ok (flat_map (last_var_items mp op V' H' b0 b1 b2) (seq 0 (N - 778)),
           flat_map (last_var_items m (off + Z.of_nat C * s0) V H s0 s1 s0)
                    (seq 0 (N - 778)))) /\
  (let printed :=
     mk_world g'
       (log w ++ [EvCallOLS E (seed a); EvCallPredict E Xv;
                  EvPrintSummary E (dataset a) (instance_norm a) (individual a)
                    (alpha a) C H mse mae;
                  EvPrintShapes E (shape preds) [N; V; H]]) in
   evaluate a tr te w
   = match plot_series yv preds with
     | Ok pt => draw (fst pt) (snd pt) printed
     | Err e => (printed, Err e)
     end).
Proof.
  intros C H N Xv yv Hdata Hlen Hols Hpred Hmse Hmae.
  assert (HN : (T + 1 - (C + H))%nat = N) by (unfold N; lia).
  split; [|split].
  - intros Hsmall. unfold plot_series, yv. cbn [shape0 shape rbind].
    rewrite range_holdback.
    now replace (N - 778)%nat with 0%nat by lia.
  - intros mp op N' V' H' b0 b1 b2 -> HV HV' HN'.
    unfold plot_series, yv. cbn [shape0 shape rbind].
    rewrite range_holdback.
    rewrite plot_loop_rows by (try assumption; lia).
    reflexivity.
  - cbv zeta.
    unfold evaluate, bind, emit, extern, lift. cbn [rng log].
    fold C H. rewrite Hols. rewrite Hdata.
    rewrite WindowFacts.test_instances_ok by exact Hlen.
    rewrite HN. rewrite WindowFacts.X_ok, WindowFacts.y_ok.
    fold Xv yv. cbn [rng log]. rewrite Hpred, Hmse, Hmae. cbn [rng log].
    rewrite <- !app_assoc. cbn [app]. unfold yv. cbn [shape].
    destruct (plot_series _ preds) as [pt | e]; reflexivity.
Qed.

Lemma plot_truncation_witness :
  plot_series
    (mk_ndarray (fun z : Z => z) (0 + Z.of_nat 2 * 1) [3%nat; 1%nat; 1%nat]
                [1%Z; 1%Z; 1%Z])
    (mk_ndarray (fun z : Z => z) 0 [3%nat; 1%nat; 2%nat] [1%Z; 1%Z; 1%Z])
  = Ok ([], []).
Proof.
  refine (proj1 (@plot_truncation (toy_externals 5 1)
                   (toy_args 5 1 2 1 (Some 42%Z))
                   (mk_Dataset (toy_series 5 1)) (mk_Dataset (toy_series 5 1))
                   (toy_world 5 1 0) (fun z => z) 0%Z 5%nat 1%nat 1%Z 1%Z
                   0%Z 0%Z tt
                   (mk_ndarray (fun z : Z => z) 0 [3%nat; 1%nat; 2%nat]
                               [1%Z; 1%Z; 1%Z])
                   0%Z 0%Z _ _ _ _ _ _) _).
  - reflexivity.
  - simpl. lia.
  - reflexivity.
  - reflexivity.
  - reflexivity.
  - reflexivity.
  - simpl. lia.
Defined.

End PlotFacts.

(** ** The forecasting engine *)

Module ForecastFacts.

Import Forecast.
Local Open Scope R_scope.

Section NormalizerFacts.

Variable eps : R.
Hypothesis eps_pos : 0 < eps.

Lemma scale_pos (enabled : bool) (ctx : list R) :
  0 < scale (context_stats eps enabled ctx).
Proof.
  destruct enabled; cbn [context_stats scale].
  - apply Rlt_le_trans with eps; [exact eps_pos | apply Rmax_r].
  - lra.
Qed.

Lemma backward_forward (st : stats) (x : R) :
  0 < scale st -> forward st x * scale st + mean st = x.
Proof. intros Hs. unfold forward. field. lra. Qed.

Lemma denormalize_forward (st : stats) (v : list R) :
  0 < scale st -> denormalize (map (forward st) v) st = v.
Proof.
  intros Hs. unfold denormalize. rewrite map_map.
  rewrite <- (map_id v) at 2. apply map_ext.
  intros x. now apply backward_forward.
Qed.

Lemma forward_denormalize (st : stats) (v : list R) :
  0 < scale st -> map (forward st) (denormalize v st) = v.
Proof.
  intros Hs. unfold denormalize. rewrite map_map.
  rewrite <- (map_id v) at 2. apply map_ext.
  intros x. unfold forward. field. lra.
Qed.

End NormalizerFacts.

(** C2. With a positive floor, the scale that InstanceNormalizer computes
    is positive, and denormalize undoes the forward transform exactly: on
    the normalized context, on the normalized target, and on any values
    normalized with the statistics of the window. *)
Theorem denormalize_normalize (eps : R) (enabled : bool) (ctx : list R)
    (tgt : option (list R)) :
  0 < eps ->
  let r := normalize eps enabled ctx tgt in
  let st := snd r in
  0 < scale st /\
  denormalize (fst (fst r)) st = ctx /\
  (forall t : list R, tgt = Some t ->
     exists nt : list R, snd (fst r) = Some nt /\ denormalize nt st = t) /\
  (forall v : list R, denormalize (map (forward st) v) st = v).
Proof.
  intros Heps r st.
  assert (Hs : 0 < scale st) by (apply scale_pos; exact Heps).
  split; [exact Hs|]. split; [|split].
  - apply denormalize_forward. exact Hs.
  - intros t ->. exists (map (forward st) t). split; [reflexivity|].
    apply denormalize_forward. exact Hs.
  - intros v. apply denormalize_forward. exact Hs.
Qed.

Lemma denormalize_normalize_witness :
  denormalize (fst (fst (normalize 1 true [1; 2; 3] None)))
              (snd (normalize 1 true [1; 2; 3] None))
  = [1; 2; 3].
Proof.
  refine (proj1 (proj2 (@denormalize_normalize 1 true [1; 2; 3] None _))).
  lra.
Defined.

Lemma map_fst_combine {X Y Z : Type} (g : X -> Z) (xs : list X) (ys : list Y) :
  List.length ys = List.length xs ->
  map (fun xy => g (fst xy)) (combine xs ys) = map g xs.
Proof.
  revert ys. induction xs as [|x xs IH]; intros [|y ys] Hlen;
    try discriminate; [reflexivity|].
  cbn. f_equal. apply IH. now injection Hlen.
Qed.

(** C5. The statistics and the normalized context are those of the context
    alone: they are the same whatever target is passed, or none, and the
    target is normalized with the statistics of the context.  The same
    holds for a whole window: two windows with the same context and
    targets of the same shape have the same normalized context. *)
Theorem statistics_from_context_only (eps : R) (enabled : bool)
    (ctx : list R) (tgt1 tgt2 : option (list R)) :
  snd (normalize eps enabled ctx tgt1) = snd (normalize eps enabled ctx tgt2) /\
  fst (fst (normalize eps enabled ctx tgt1))
  = fst (fst (normalize eps enabled ctx tgt2)) /\
  snd (normalize eps enabled ctx tgt1) = context_stats eps enabled ctx /\
  snd (fst (normalize eps enabled ctx tgt1))
  = option_map (map (forward (context_stats eps enabled ctx))) tgt1 /\
  (forall c t1 t2 : list (list R),
     List.length t1 = List.length c -> List.length t2 = List.length c ->
     context (normalize_window eps enabled (mk_Window c t1))
     = context (normalize_window eps enabled (mk_Window c t2)) /\
     target (normalize_window eps enabled (mk_Window c t1))
     = map (fun ct => map (forward (context_stats eps enabled (fst ct)))
                          (snd ct))
           (combine c t1)).
Proof.
  repeat split.
  - unfold normalize_window. cbn [context target]. rewrite !map_map.
    cbn [normalize fst snd].
    rewrite (map_fst_combine
               (fun x => map (forward (context_stats eps enabled x)) x) c t1)
      by assumption.
    rewrite (map_fst_combine
               (fun x => map (forward (context_stats eps enabled x)) x) c t2)
      by assumption.
    reflexivity.
  - unfold normalize_window. cbn [context target]. rewrite !map_map.
    reflexivity.
Qed.

(** C7. A training series with fewer than context_length + horizon time
    steps makes window extraction fail with [InsufficientDataError], and
    fitting returns that error and no model, whatever the estimator would
    do: it is never reached. *)
Theorem fit_insufficient_data (eps : R)
    (estimator : matrix -> matrix -> R -> result matrix)
    (cfg : config) (training_series : Series) :
  (time_length training_series < context_length cfg + horizon cfg)%nat ->
  extract training_series (context_length cfg) (horizon cfg)
  = Err InsufficientDataError /\
  fit eps estimator cfg training_series = Err InsufficientDataError.
Proof.
  intros Hshort.
  assert (Hx : extract training_series (context_length cfg) (horizon cfg)
               = Err InsufficientDataError).
  { unfold extract.
    now replace (time_length training_series
                 <? context_length cfg + horizon cfg)%nat
      with true by (symmetry; now apply Nat.ltb_lt). }
  split; [exact Hx|]. unfold fit. now rewrite Hx.
Qed.

Lemma fit_insufficient_data_witness :
  fit 1 (fun _ _ _ => Err SingularMatrixError)
      (mk_config 2 2 true true 0 None None)
      (mk_Series 1 [[1]; [2]; [3]])
  = Err InsufficientDataError.
Proof.
  refine (proj2 (@fit_insufficient_data 1 (fun _ _ _ => Err SingularMatrixError)
                   (mk_config 2 2 true true 0 None None)
                   (mk_Series 1 [[1]; [2]; [3]]) _)).
  unfold time_length. simpl. lia.
Defined.

Section PredictFacts.

Variable eps : R.

Lemma nth_error_combine {X Y : Type} (xs : list X) (ys : list Y) (n : nat)
    (x : X) (y : Y) :
  nth_error xs n = Some x -> nth_error ys n = Some y ->
  nth_error (combine xs ys) n = Some (x, y).
Proof.
  revert xs ys. induction n as [|n IH]; intros [|a xs] [|b ys] Hx Hy;
    try discriminate.
  - cbn in *. congruence.
  - cbn in *. now apply IH.
Qed.

Lemma length_predict_variable (enabled : bool) (W : matrix) (x : list R) :
  List.length (predict_variable eps enabled W x) = ncols W.
Proof.
  unfold predict_variable, denormalize, apply_weights.
  now rewrite !length_map, length_seq.
Qed.

Lemma has_shape_context_length (X : list (list (list R))) (B V L : nat) :
  has_shape X B V L -> has_context_length L X = true.
Proof.
  intros [_ HX]. unfold has_context_length.
  apply forallb_forall. intros w Hw.
  rewrite Forall_forall in HX. destruct (HX w Hw) as [_ Hrows].
  apply forallb_forall. intros x Hx.
  rewrite Forall_forall in Hrows. apply Nat.eqb_eq. now apply Hrows.
Qed.

Lemma has_shape_variables (X : list (list (list R))) (B V L : nat) :
  has_shape X B V L -> has_variables V X = true.
Proof.
  intros [_ HX]. unfold has_variables.
  apply forallb_forall. intros w Hw.
  rewrite Forall_forall in HX. destruct (HX w Hw) as [Hv _].
  now apply Nat.eqb_eq.
Qed.

(** Normalizing a prediction with the statistics of its own context gives
    the weights applied to the normalized context. *)
Lemma predict_variable_units (enabled : bool) (W : matrix) (x : list R) :
  0 < eps ->
  map (forward (context_stats eps enabled x)) (predict_variable eps enabled W x)
  = apply_weights W (map (forward (context_stats eps enabled x)) x).
Proof.
  intros Heps. unfold predict_variable.
  apply forward_denormalize. now apply scale_pos.
Qed.

End PredictFacts.

(** For a model whose weights have the shape that fitting establishes and
    a batch of shape (B, V, C), predict returns a batch of shape (B, V, H),
    each prediction in the raw units of its own window. *)
Theorem predict_shape (eps : R) (m : ForecastModel)
    (X : list (list (list R))) (B V : nat) :
  0 < eps ->
  fitted m V ->
  has_shape X B V (context_length (model_config m)) ->
  exists Y : list (list (list R)),
    predict eps m X = Ok Y /\
    has_shape Y B V (horizon (model_config m)) /\
    (forall (b v : nat) (w : list (list R)) (x : list R) (W : matrix),
       nth_error X b = Some w -> nth_error w v = Some x ->
       weights_for m v = Some W ->
       let st := context_stats eps (instance_norm (model_config m)) x in
       exists (Yb : list (list R)) (yv : list R),
         nth_error Y b = Some Yb /\ nth_error Yb v = Some yv /\
         map (forward st) yv = apply_weights W (map (forward st) x)).
Proof.
  intros Heps Hfit HX.
  pose proof (has_shape_context_length HX) as Hlen.
  pose proof (has_shape_variables HX) as Hvars.
  destruct HX as [HB HX]. rewrite Forall_forall in HX.
  unfold predict, fitted, weights_for in *. rewrite Hlen. cbn [negb].
  destruct (model_weights m) as [W | Ws]; cbv beta iota in *.
  - destruct Hfit as [_ Hcols].
    eexists. split; [reflexivity|]. split; [split|].
    + now rewrite length_map.
    + apply Forall_forall. intros Yb HYb.
      apply in_map_iff in HYb as (w & <- & Hw).
      destruct (HX w Hw) as [Hv _]. split; [now rewrite length_map|].
      apply Forall_forall. intros yv Hyv.
      apply in_map_iff in Hyv as (x & <- & _).
      now rewrite length_predict_variable.
    + intros b v w x W' Hb Hv [= <-].
      exists (map (predict_variable eps (instance_norm (model_config m)) W) w),
             (predict_variable eps (instance_norm (model_config m)) W x).
      split; [now rewrite nth_error_map, Hb|].
      split; [now rewrite nth_error_map, Hv|].
      now apply predict_variable_units.
  - destruct Hfit as [HWs Hall]. rewrite Forall_forall in Hall.
    rewrite HWs, Hvars.
    eexists. split; [reflexivity|]. split; [split|].
    + now rewrite length_map.
    + apply Forall_forall. intros Yb HYb.
      apply in_map_iff in HYb as (w & <- & Hw).
      destruct (HX w Hw) as [Hv _]. split.
      * rewrite length_map, length_combine, HWs, Hv. apply Nat.min_id.
      * apply Forall_forall. intros yv Hyv.
        apply in_map_iff in Hyv as ([W x] & <- & HWx).
        cbn [fst snd]. rewrite length_predict_variable.
        apply in_combine_l in HWx. now apply Hall.
    + intros b v w x W Hb Hv HW.
      exists (map (fun Wx => predict_variable eps
                               (instance_norm (model_config m))
                               (fst Wx) (snd Wx)) (combine Ws w)),
             (predict_variable eps (instance_norm (model_config m)) W x).
      split; [now rewrite nth_error_map, Hb|].
      split.
      * rewrite nth_error_map.
        now rewrite (nth_error_combine _ _ _ HW Hv).
      * now apply predict_variable_units.
Qed.

Lemma predict_shape_witness :
  exists Y : list (list (list R)),
    predict 1 (mk_ForecastModel (mk_config 2 1 true false 0 None None)
                 (Shared (mk_matrix 2 1 (fun _ _ => 1))))
            [[[1; 2]]] = Ok Y /\
    has_shape Y 1 1 1.
Proof.
  destruct (@predict_shape 1
              (mk_ForecastModel (mk_config 2 1 true false 0 None None)
                 (Shared (mk_matrix 2 1 (fun _ _ => 1))))
              [[[1; 2]]] 1 1) as (Y & HY & Hshape & _).
  - lra.
  - split; reflexivity.
  - split; [reflexivity|]. repeat constructor.
  - exists Y. split; assumption.
Defined.

Section FitFacts.

Variable eps : R.
Variable estimator : matrix -> matrix -> R -> result matrix.
Hypothesis estimator_shape : returns_weight_shape estimator.

Lemma collect_ok {X : Type} (rs : list (result X)) (xs : list X) :
  collect rs = Ok xs ->
  List.length xs = List.length rs /\
  forall x : X, In x xs -> In (Ok x) rs.
Proof.
  revert xs. induction rs as [|r rs IH]; intros xs Hc.
  - cbn in Hc. injection Hc as <-. split; [reflexivity | intros x []].
  - cbn in Hc. destruct r as [x0|e]; [|discriminate]. cbn in Hc.
    destruct (collect rs) as [xs0|e]; [|discriminate]. cbn in Hc.
    injection Hc as <-. destruct (IH xs0 eq_refl) as [Hlen Hin].
    split; [cbn; now rewrite Hlen|].
    intros x [<- | Hx]; [now left | right; now apply Hin].
Qed.

(** What fitting establishes: the model keeps its configuration, every
    weight matrix has shape context_length x horizon, and a per-variable
    model holds one matrix per variable of the training series. *)
Lemma fit_fitted (cfg : config) (training_series : Series)
    (m : ForecastModel) (V : nat) :
  fit eps estimator cfg training_series = Ok m ->
  (individual cfg = true -> V = variables training_series) ->
  model_config m = cfg /\ fitted m V.
Proof.
  unfold fit. intros Hfit HV.
  destruct (extract training_series (context_length cfg) (horizon cfg))
    as [windows | e]; [|discriminate].
  cbn [rbind] in Hfit.
  destruct (individual cfg).
  - destruct (collect _) as [Ws | e] eqn:Hc; [|discriminate].
    cbn [rbind] in Hfit. injection Hfit as <-.
    split; [reflexivity|]. unfold fitted. cbn [model_weights model_config].
    destruct (collect_ok _ Hc) as [Hlen Hin]. split.
    + now rewrite Hlen, length_map, length_seq, HV.
    + apply Forall_forall. intros W HW.
      apply Hin in HW. apply in_map_iff in HW as (v & Hest & _).
      now apply estimator_shape in Hest.
  - destruct (estimator _ _ _) as [W | e] eqn:Hest; [|discriminate].
    cbn [rbind] in Hfit. injection Hfit as <-.
    split; [reflexivity|]. unfold fitted. cbn [model_weights model_config].
    now apply estimator_shape in Hest.
Qed.

End FitFacts.

(** C6. For every model that fit returns, with an estimator that returns
    weight matrices of the shape of its contract, and every batch of shape
    (B, V, C), where in individual mode V is the number of variables that
    were fit, predict returns a batch of shape (B, V, H), for every B.
    Each prediction is in the raw units of its own window: normalized with
    the statistics of that window's context it is the weights applied to
    the normalized context. *)
Theorem fitted_model_predict_shape (eps : R)
    (estimator : matrix -> matrix -> R -> result matrix)
    (cfg : config) (training_series : Series) (m : ForecastModel)
    (X : list (list (list R))) (B V : nat) :
  0 < eps ->
  returns_weight_shape estimator ->
  fit eps estimator cfg training_series = Ok m ->
  (individual cfg = true -> V = variables training_series) ->
  has_shape X B V (context_length cfg) ->
  exists Y : list (list (list R)),
    predict eps m X = Ok Y /\
    has_shape Y B V (horizon cfg) /\
    (forall (b v : nat) (w : list (list R)) (x : list R) (W : matrix),
       nth_error X b = Some w -> nth_error w v = Some x ->
       weights_for m v = Some W ->
       let st := context_stats eps (instance_norm cfg) x in
       exists (Yb : list (list R)) (yv : list R),
         nth_error Y b = Some Yb /\ nth_error Yb v = Some yv /\
         map (forward st) yv = apply_weights W (map (forward st) x)).
Proof.
  intros Heps Hest Hfit HV HX.
  destruct (@fit_fitted eps estimator Hest cfg training_series m V Hfit HV)
    as [Hcfg Hfitted].
  rewrite <- Hcfg in HX |- *.
  exact (@predict_shape eps m X B V Heps Hfitted HX).
Qed.

Lemma fitted_model_predict_shape_witness :
  exists (m : ForecastModel) (Y : list (list (list R))),
    fit 1 (fun Xm ym _ => Ok (mk_matrix (ncols Xm) (ncols ym) (fun _ _ => 1)))
        (mk_config 1 1 true false 0 None None)
        (mk_Series 1 [[1]; [2]; [3]]) = Ok m /\
    predict 1 m [[[1]]; [[2]]] = Ok Y /\
    has_shape Y 2 1 1.
Proof.
  eexists.
  assert (Hfit : fit 1 (fun Xm ym _ =>
                          Ok (mk_matrix (ncols Xm) (ncols ym) (fun _ _ => 1)))
                   (mk_config 1 1 true false 0 None None)
                   (mk_Series 1 [[1]; [2]; [3]]) = Ok _) by reflexivity.
  assert (Hest : returns_weight_shape
                   (fun Xm ym _ =>
                      Ok (mk_matrix (ncols Xm) (ncols ym) (fun _ _ => 1)))).
  { intros Xm ym a W [= <-]. split; reflexivity. }
  assert (HX : has_shape [[[1]]; [[2]]] 2 1 1).
  { split; [reflexivity | repeat constructor]. }
  destruct (@fitted_model_predict_shape 1 _ _ _ _ [[[1]]; [[2]]] 2 1
              ltac:(lra) Hest Hfit ltac:(intros _; reflexivity) HX)
    as (Y & HY & Hshape & _).
  exists Y. split; [exact Hfit|]. split; [exact HY | exact Hshape].
Defined.

End ForecastFacts.

(** ** The closed-form estimator *)

Module EstimatorFacts.

Import ssreflect ssrfun ssrbool eqtype ssrnat seq choice fintype bigop.
Import order ssralg ssrnum matrix mxalgebra rat ring_tactic arithmetic_tactic.
Import Order.Theory GRing.Theory Num.Theory.
Import ClosedFormEstimator.
Local Open Scope ring_scope.

Section Solve.
Variable F : realFieldType.

Lemma dot_ge0 (n : nat) (u : 'rV[F]_n) : 0 <= (u *m u^T) 0 0.
Proof.
rw mxE; apply: sumr_ge0 => j _.
by rw mxE -expr2 sqr_ge0.
Qed.

Lemma dot_eq0 (n : nat) (u : 'rV[F]_n) : (u *m u^T) 0 0 = 0 -> u = 0.
Proof.
rw mxE => Hsum.
apply/rowP => j; rw [RHS]mxE.
have Hpos : forall i : 'I_n, true -> 0 <= u 0 i * u^T i 0.
  by move=> i _; rw mxE -expr2 sqr_ge0.
have := @psumr_eq0P _ _ _ _ Hpos Hsum j isT.
rw mxE => /eqP.
by rw mulf_eq0 orbb => /eqP.
Qed.

Lemma gram_unit (N C : nat) (X : 'M[F]_(N, C)) (alpha : F) :
  0 < alpha -> gram X alpha \in unitmx.
Proof.
move=> Ha.
rw -row_free_unit -kermx_eq0.
apply/eqP/row_matrixP => i.
rw row0.
set u := row i _.
have Hu : u *m gram X alpha = 0.
  by rw /u -row_mul mulmx_ker row0.
apply: dot_eq0.
have : (u *m gram X alpha *m u^T) 0 0 = 0 by rw Hu mul0mx mxE.
rw /gram mulmxDr mulmxDl -scalemxAr mulmx1 -scalemxAl.
have -> : u *m (X^T *m X) *m u^T = (u *m X^T) *m (u *m X^T)^T.
  by rw trmx_mul trmxK !mulmxA.
rw mxE [X in _ + X]mxE => Hsum.
have H1 := dot_ge0 (u *m X^T).
have H2 := dot_ge0 u.
have H3 : alpha * (u *m u^T) 0 0 <= 0.
  by rw -Hsum lerDr.
apply/eqP; rw eq_le H2 andbT.
by rw -(pmulr_rle0 _ Ha).
Qed.


Lemma sq_norm_ge0 (m n : nat) (A : 'M[F]_(m, n)) : 0 <= sq_norm A.
Proof.
rw /sq_norm /mxtrace; apply: sumr_ge0 => j _.
rw mxE; apply: sumr_ge0 => i _.
by rw mxE -expr2 sqr_ge0.
Qed.

Lemma tr_symm (m n : nat) (A B : 'M[F]_(m, n)) :
  \tr (A^T *m B) = \tr (B^T *m A).
Proof. by rw -mxtrace_tr trmx_mul trmxK. Qed.

Lemma sq_normD (m n : nat) (A B : 'M[F]_(m, n)) :
  sq_norm (A + B) = sq_norm A + (\tr (A^T *m B) + \tr (A^T *m B)) + sq_norm B.
Proof.
rw /sq_norm.
have -> : (A + B)^T = A^T + B^T by rw raddfD.
rw mulmxDl !mulmxDr !mxtraceD (tr_symm B A).
ring.
Qed.

Lemma ridge_loss_min (N C H : nat) (X : 'M[F]_(N, C)) (y : 'M[F]_(N, H))
    (alpha : F) (W W' : 'M[F]_(C, H)) :
  0 <= alpha -> gram X alpha *m W = X^T *m y ->
  ridge_loss X y alpha W <= ridge_loss X y alpha W'.
Proof.
move=> Ha Hne.
have [D HW'] : exists D, W' = W + D.
  by exists (W' - W); rw addrC subrK.
have Hz : X^T *m (X *m W - y) + alpha *: W = 0.
  rw mulmxBr mulmxA addrAC.
  have -> : X^T *m X *m W + alpha *: W = gram X alpha *m W.
    by rw /gram mulmxDl -scalemxAl mul1mx.
  by rw Hne subrr.
have Hcross : \tr ((X *m W - y)^T *m (X *m D)) + alpha * \tr (W^T *m D) = 0.
  rw (tr_symm (X *m W - y)) (tr_symm W) -mxtraceZ -mxtraceD.
  by rw trmx_mul -mulmxA scalemxAr -mulmxDr Hz mulmx0 mxtrace0.
have Hres : X *m W' - y = (X *m W - y) + X *m D.
  by rw HW' mulmxDr addrAC.
rw /ridge_loss Hres HW' (sq_normD (X *m W - y)) (sq_normD W).
have H1 := sq_norm_ge0 (X *m D).
have H2 : 0 <= alpha * sq_norm D by apply: mulr_ge0 => //; apply: sq_norm_ge0.
rw !mulrDr.
move: Hcross H1 H2.
set a := sq_norm (X *m W - y); set b := alpha * sq_norm W.
set c := sq_norm (X *m D); set d := alpha * sq_norm D.
set t1 := \tr _; set t2 := alpha * \tr _.
move: a b c d t1 t2 => a b c d t1 t2.
lra.
Qed.


Lemma fit_unit (N C H : nat) (X : 'M[F]_(N, C)) (y : 'M[F]_(N, H)) (alpha : F) :
  gram X alpha \in unitmx ->
  fit X y alpha = Ok (invmx (gram X alpha) *m X^T *m y) /\
  gram X alpha *m (invmx (gram X alpha) *m X^T *m y) = X^T *m y /\
  (forall W' : 'M[F]_(C, H),
     gram X alpha *m W' = X^T *m y -> W' = invmx (gram X alpha) *m X^T *m y).
Proof.
move=> Hu; split; first by rw /fit Hu.
split; first by rw -mulmxA mulKVmx.
by move=> W' HW'; rw -mulmxA -HW' mulKmx.
Qed.

End Solve.

(** C3. For every alpha >= 0 for which the matrix XᵀX + alpha·I has an
    inverse, fit returns W = (XᵀX + alpha·I)⁻¹Xᵀy.  The matrix has an
    inverse for every alpha > 0, and for alpha = 0 when XᵀX has one.  This
    W is the one solution of the regularized normal equations and it
    minimizes the ridge loss.  With alpha = 0 it is the ordinary least
    squares solution (XᵀX)⁻¹Xᵀy, which minimizes the squared residual. *)
Theorem ridge_solution (F : realFieldType) (N C H : nat)
    (X : 'M[F]_(N, C)) (y : 'M[F]_(N, H)) (alpha : F) :
  0 <= alpha ->
  (alpha = 0 -> X^T *m X \in unitmx) ->
  exists W : 'M[F]_(C, H),
    fit X y alpha = Ok W /\
    X^T *m X + alpha *: 1%:M \in unitmx /\
    W = invmx (X^T *m X + alpha *: 1%:M) *m X^T *m y /\
    (X^T *m X + alpha *: 1%:M) *m W = X^T *m y /\
    (forall W' : 'M[F]_(C, H),
       (X^T *m X + alpha *: 1%:M) *m W' = X^T *m y -> W' = W) /\
    (forall W' : 'M[F]_(C, H),
       ridge_loss X y alpha W <= ridge_loss X y alpha W') /\
    (alpha = 0 ->
       W = ols X y /\
       forall W' : 'M[F]_(C, H),
         sq_norm (X *m W - y) <= sq_norm (X *m W' - y)).
Proof.
move=> Ha H0.
have Hu : gram X alpha \in unitmx.
  move: Ha; rw le_eqVlt => /orP [/eqP Hz | Hpos]; last exact: gram_unit.
  by rw /gram -Hz scale0r addr0; apply: H0.
have [Hfit [Hne Huniq]] := @fit_unit _ _ _ _ X y alpha Hu.
exists (invmx (gram X alpha) *m X^T *m y).
split=> //; split; first exact: Hu.
do 3![split=> //].
split; first by move=> W'; apply: ridge_loss_min.
- move=> Hz; split; first by rw /ols /gram Hz scale0r addr0.
  move=> W'.
  have := @ridge_loss_min _ _ _ _ X y alpha _ W' Ha Hne.
  by rw /ridge_loss Hz !mul0r !addr0.
Qed.

Lemma ridge_solution_witness :
  exists W : 'M[rat]_(1, 1),
    fit (1%:M : 'M[rat]_(1, 1)) (1%:M : 'M[rat]_(1, 1)) 1 = Ok W.
Proof.
have H1 : (0 : rat) <= 1 by [].
have H2 : (1 : rat) = 0 -> (1%:M : 'M[rat]_(1, 1))^T *m 1%:M \in unitmx.
  by move/eqP; rw oner_eq0.
have [W [HW _]] := @ridge_solution rat 1 1 1 1%:M 1%:M 1 H1 H2.
by exists W.
Defined.

(** C3 as the specification words it fails when alpha = 0 and XᵀX has no
    inverse.  For X = 0 the matrix of the normal equations is 0: nothing is
    its inverse, so no weight matrix is (XᵀX + alpha·I)⁻¹Xᵀy, whatever fit
    does there; and every W solves the normal equations, so they do not
    single one out either. *)
Lemma no_inverse_without_regularization :
  let X : 'M[rat]_(1, 1) := 0 in
  let y : 'M[rat]_(1, 1) := 1%:M in
  (0 : rat) <= 0 /\
  ~ (exists W B : 'M[rat]_(1, 1),
       fit X y 0 = Ok W /\
       B *m (X^T *m X + 0 *: 1%:M) = 1%:M /\
       W = B *m X^T *m y) /\
  (forall W : 'M[rat]_(1, 1), (X^T *m X + 0 *: 1%:M) *m W = X^T *m y).
Proof.
have Hg : (0 : 'M[rat]_(1, 1))^T *m 0 + 0 *: 1%:M = 0 :> 'M[rat]_(1, 1).
  by rw trmx0 mul0mx scale0r addr0.
split=> //; split.
  case=> W [B [_ [HB _]]].
  move: HB; rw Hg mulmx0 => /matrixP /(_ 0 0).
  by rw !mxE.
by move=> W; rw Hg trmx0 !mul0mx.
Qed.

End EstimatorFacts.

(** ** How the windows of the entry point overlap *)

Module OverlapFacts.

Import Np NpFacts Main.
Local Open Scope Z_scope.

(** With step size 1, window [i+1] is window [i] shifted by one time step:
    slot [k] of the one is slot [k+1] of the other, the same memory cell. *)
Theorem consecutive_windows_overlap (F : Type) (m : Z -> F) (off : Z)
    (T V : nat) (s0 s1 : Z) (C H : nat) :
  (C + H <= T)%nat ->
  let N := (T - C - H + 1)%nat in
  exists instances : ndarray F,
    test_instances (array2 m off T V s0 s1) C H = Ok instances /\
    forall i v k : nat,
      (i + 1 < N)%nat -> (v < V)%nat -> (k + 1 < C + H)%nat ->
      aliases instances [Z.of_nat (i + 1); Z.of_nat v; Z.of_nat k]
              instances [Z.of_nat i; Z.of_nat v; Z.of_nat (k + 1)].
Proof.
  intros Hlen N.
  assert (HN : (T + 1 - (C + H))%nat = N) by (unfold N; lia).
  exists (mk_ndarray m off [N; V; (C + H)%nat] [s0; s1; s0]).
  split.
  - rewrite WindowFacts.test_instances_ok by exact Hlen. now rewrite HN.
  - intros i v k Hi Hv Hk. split; [reflexivity|].
    exists (off + Z.of_nat i * s0 + Z.of_nat v * s1 + Z.of_nat (k + 1) * s0).
    split.
    + rewrite addr3 by (try assumption; lia).
      f_equal. rewrite !Nat2Z.inj_add. ring.
    + apply addr3; try assumption; lia.
Qed.

Lemma consecutive_windows_overlap_witness :
  exists instances : ndarray Z,
    test_instances (array2 (fun z => z) 0 5 2 2 1) 2 1 = Ok instances /\
    aliases instances [1; 0; 0] instances [0; 0; 1].
Proof.
  destruct (@consecutive_windows_overlap Z (fun z => z) 0 5 2 2 1 2 1
              ltac:(lia)) as (inst & Hi & Hov).
  exists inst. split; [exact Hi|].
  apply (Hov 0%nat 0%nat 0%nat); simpl; lia.
Defined.

(** The arrays handed to [predict] and compared with its output share
    data: the target value [y[i, v, k]] is also the first context value of
    window [i+C+k], whenever that window exists. *)
Theorem target_reappears_as_context (F : Type) (m : Z -> F) (off : Z)
    (T V : nat) (s0 s1 : Z) (C H : nat) :
  (C + H <= T)%nat ->
  (0 < C)%nat ->
  let N := (T - C - H + 1)%nat in
  exists instances Xv yv : ndarray F,
    test_instances (array2 m off T V s0 s1) C H = Ok instances /\
    X instances C = Ok Xv /\
    y instances C = Ok yv /\
    forall i v k : nat,
      (v < V)%nat -> (k < H)%nat -> (i + C + k < N)%nat ->
      aliases yv [Z.of_nat i; Z.of_nat v; Z.of_nat k]
              Xv [Z.of_nat (i + C + k); Z.of_nat v; 0].
Proof.
  intros Hlen HC N.
  assert (HN : (T + 1 - (C + H))%nat = N) by (unfold N; lia).
  exists (mk_ndarray m off [N; V; (C + H)%nat] [s0; s1; s0]),
         (mk_ndarray m off [N; V; C] [s0; s1; s0]),
         (mk_ndarray m (off + Z.of_nat C * s0) [N; V; H] [s0; s1; s0]).
  split; [|split; [|split]].
  - rewrite WindowFacts.test_instances_ok by exact Hlen. now rewrite HN.
  - apply WindowFacts.X_ok.
  - apply WindowFacts.y_ok.
  - intros i v k Hv Hk Hi. split; [reflexivity|].
    exists (off + Z.of_nat C * s0 + Z.of_nat i * s0 + Z.of_nat v * s1
            + Z.of_nat k * s0).
    split.
    + apply addr3; try assumption; lia.
    + change 0 with (Z.of_nat 0).
      rewrite addr3 by (try assumption; lia).
      f_equal. rewrite !Nat2Z.inj_add. cbn [Z.of_nat]. ring.
Qed.

Lemma target_reappears_as_context_witness :
  exists instances Xv yv : ndarray Z,
    test_instances (array2 (fun z => z) 0 6 2 2 1) 2 1 = Ok instances /\
    X instances 2 = Ok Xv /\ y instances 2 = Ok yv /\
    aliases yv [0; 0; 0] Xv [2; 0; 0].
Proof.
  destruct (@target_reappears_as_context Z (fun z => z) 0 6 2 2 1 2 1
              ltac:(lia) ltac:(lia)) as (inst & Xv & yv & H1 & H2 & H3 & Hov).
  exists inst, Xv, yv. repeat split; try assumption.
  - exact (proj1 (Hov 0%nat 0%nat 0%nat ltac:(lia) ltac:(lia) ltac:(simpl; lia))).
  - exact (proj2 (Hov 0%nat 0%nat 0%nat ltac:(lia) ltac:(lia) ltac:(simpl; lia))).
Defined.

(** Over a C-contiguous series (row stride [V], column stride 1) the
    context and the target of one window never share a cell: every cell of
    [y[i]] lies after every cell of [X[i]]. *)
Theorem context_and_target_disjoint (F : Type) (m : Z -> F) (off : Z)
    (T V : nat) (C H : nat) :
  (C + H <= T)%nat ->
  let N := (T - C - H + 1)%nat in
  exists instances Xv yv : ndarray F,
    test_instances (array2 m off T V (Z.of_nat V) 1) C H = Ok instances /\
    X instances C = Ok Xv /\
    y instances C = Ok yv /\
    forall i v k v' k' : nat,
      (i < N)%nat -> (v < V)%nat -> (k < C)%nat ->
      (v' < V)%nat -> (k' < H)%nat ->
      exists p q : Z,
        addr Xv [Z.of_nat i; Z.of_nat v; Z.of_nat k] = Ok p /\
        addr yv [Z.of_nat i; Z.of_nat v'; Z.of_nat k'] = Ok q /\
        p < q.
Proof.
  intros Hlen N.
  assert (HN : (T + 1 - (C + H))%nat = N) by (unfold N; lia).
  exists (mk_ndarray m off [N; V; (C + H)%nat] [Z.of_nat V; 1; Z.of_nat V]),
         (mk_ndarray m off [N; V; C] [Z.of_nat V; 1; Z.of_nat V]),
         (mk_ndarray m (off + Z.of_nat C * Z.of_nat V) [N; V; H]
                     [Z.of_nat V; 1; Z.of_nat V]).
  split; [|split; [|split]].
  - rewrite WindowFacts.test_instances_ok by exact Hlen. now rewrite HN.
  - apply WindowFacts.X_ok.
  - apply WindowFacts.y_ok.
  - intros i v k v' k' Hi Hv Hk Hv' Hk'.
    eexists. eexists. split; [now apply addr3|]. split; [now apply addr3|].
    nia.
Qed.

Lemma context_and_target_disjoint_witness :
  exists instances Xv yv : ndarray Z,
    test_instances (array2 (fun z => z) 0 5 2 (Z.of_nat 2) 1) 2 1
    = Ok instances /\
    X instances 2 = Ok Xv /\ y instances 2 = Ok yv.
Proof.
  destruct (@context_and_target_disjoint Z (fun z => z) 0 5 2 2 1
              ltac:(lia)) as (inst & Xv & yv & H1 & H2 & H3 & _).
  exists inst, Xv, yv. repeat split; assumption.
Defined.

End OverlapFacts.

(** ** What the plotted series contain *)

Module PlotSeriesFacts.

Import Np NpFacts Main.
Local Open Scope Z_scope.

Section Blocks.

Variables A B : Type.
Variable f : A -> list B.
Variable width : nat.
Hypothesis f_width : forall a : A, List.length (f a) = width.

Lemma length_flat_map_blocks (l : list A) :
  List.length (flat_map f l) = (List.length l * width)%nat.
Proof.
  induction l as [|a l IH]; [reflexivity|].
  cbn [flat_map List.length]. rewrite length_app, f_width, IH. lia.
Qed.

Lemma nth_error_flat_map_blocks (l : list A) (i k : nat) (a : A) :
  nth_error l i = Some a -> (k < width)%nat ->
  nth_error (flat_map f l) (i * width + k) = nth_error (f a) k.
Proof.
  revert i. induction l as [|b l IH]; intros [|i] Hi Hk; try discriminate.
  - cbn in Hi. injection Hi as ->. cbn [flat_map Nat.mul Nat.add].
    apply nth_error_app1. now rewrite f_width.
  - cbn in Hi. cbn [flat_map].
    rewrite nth_error_app2 by (rewrite f_width; lia).
    rewrite f_width.
    replace (S i * width + k - width)%nat with (i * width + k)%nat by lia.
    now apply IH.
Qed.

End Blocks.

Section Series.

Variable F : Type.

Lemma length_last_var_items (m : Z -> F) (off : Z) (V H : nat) (s0 s1 s2 : Z)
    (i : nat) :
  List.length (last_var_items m off V H s0 s1 s2 i) = H.
Proof. unfold last_var_items. now rewrite length_map, length_seq. Qed.

Lemma plot_series_rows (my mp : Z -> F) (oy op : Z) (N V H N' V' H' : nat)
    (a0 a1 a2 b0 b1 b2 : Z) :
  (0 < V)%nat -> (0 < V')%nat -> (N - 778 <= N')%nat ->
  plot_series (mk_ndarray my oy [N; V; H] [a0; a1; a2])
              (mk_ndarray mp op [N'; V'; H'] [b0; b1; b2])
  = Ok (flat_map (last_var_items mp op V' H' b0 b1 b2) (seq 0 (N - 778)),
        flat_map (last_var_items my oy V H a0 a1 a2) (seq 0 (N - 778))).
Proof.
  intros HV HV' HN. unfold plot_series. cbn [shape0 shape rbind].
  rewrite PlotFacts.range_holdback.
  rewrite PlotFacts.plot_loop_rows by (try assumption; lia).
  reflexivity.
Qed.

(** Both plotted series hold [(N - 778) * horizon] values, [horizon]
    values for each of the first [N - 778] windows; so something is plotted
    exactly when there are more than 778 windows and the horizon is not
    zero. *)
Theorem plotted_series_length (my mp : Z -> F) (oy op : Z)
    (N V H N' V' H' : nat) (a0 a1 a2 b0 b1 b2 : Z) :
  (0 < V)%nat -> (0 < V')%nat -> (N - 778 <= N')%nat ->
  exists p t : list (pyitem F),
    plot_series (mk_ndarray my oy [N; V; H] [a0; a1; a2])
                (mk_ndarray mp op [N'; V'; H'] [b0; b1; b2]) = Ok (p, t) /\
    List.length t = ((N - 778) * H)%nat /\
    List.length p = ((N - 778) * H')%nat /\
    (t = [] <-> (N <= 778)%nat \/ H = 0%nat).
Proof.
  intros HV HV' HN. eexists. eexists.
  split; [now apply plot_series_rows|].
  assert (Ht : List.length
                 (flat_map (last_var_items my oy V H a0 a1 a2) (seq 0 (N - 778)))
               = ((N - 778) * H)%nat).
  { now rewrite (@length_flat_map_blocks _ _ _ H
                   (length_last_var_items my oy V H a0 a1 a2)), length_seq. }
  split; [exact Ht|]. split.
  - now rewrite (@length_flat_map_blocks _ _ _ H'
                   (length_last_var_items mp op V' H' b0 b1 b2)), length_seq.
  - split.
    + intros Hnil. rewrite Hnil in Ht. cbn in Ht.
      symmetry in Ht. apply Nat.eq_mul_0 in Ht. lia.
    + intros Hz. apply length_zero_iff_nil. rewrite Ht.
      destruct Hz as [Hz | Hz]; [|subst H; lia].
      replace (N - 778)%nat with 0%nat by lia. reflexivity.
Qed.

(** The loop indexes the variable axis with [-1]: over data without any
    variable, and with more than 778 windows, building the series raises
    [IndexError], whatever the predictions are. *)
Theorem plot_without_variables_raises (my : Z -> F) (oy : Z) (N H : nat)
    (a0 a1 a2 : Z) (preds : ndarray F) :
  (778 < N)%nat ->
  plot_series (mk_ndarray my oy [N; 0%nat; H] [a0; a1; a2]) preds
  = Err IndexError.
Proof.
  intros HN. unfold plot_series. cbn [shape0 shape rbind].
  rewrite PlotFacts.range_holdback.
  destruct (N - 778)%nat as [|n] eqn:Hn; [lia|].
  cbn [seq map plot_loop].
  unfold item2, item. cbn [shape strides base offset].
  rewrite (@norm_index_nat N 0) by lia.
  cbn [rbind shape strides base offset].
  now rewrite norm_index_empty.
Qed.

End Series.

Lemma plotted_series_length_witness :
  exists p t : list (pyitem Z),
    plot_series (mk_ndarray (fun z => z) 0 [3%nat; 1%nat; 2%nat] [1; 1; 1])
                (mk_ndarray (fun z => z) 0 [3%nat; 1%nat; 2%nat] [1; 1; 1])
    = Ok (p, t) /\
    List.length t = 0%nat.
Proof.
  destruct (@plotted_series_length Z (fun z => z) (fun z => z) 0 0
              3 1 2 3 1 2 1 1 1 1 1 1 ltac:(lia) ltac:(lia) ltac:(simpl; lia))
    as (p & t & Hps & Ht & _).
  exists p, t. split; [exact Hps | exact Ht].
Defined.

Lemma plot_without_variables_raises_witness :
  plot_series (mk_ndarray (fun z : Z => z) 0 [779%nat; 0%nat; 1%nat] [0; 1; 1])
              (mk_ndarray (fun z : Z => z) 0 [] [])
  = Err IndexError.
Proof.
  apply (@plot_without_variables_raises Z (fun z => z) 0 779 1 0 1 1). lia.
Defined.


(** The x axis of the plot is not time.  Position [i * H + k] of the
    plotted true values is the last variable of the held-out series at time
    step [i + C + k]; so, from one window to the next, the plot shows the
    same observations again, shifted by one. *)
Theorem plotted_position_is_time_step (F : Type) (m mp : Z -> F) (off op : Z)
    (T V : nat) (s0 s1 : Z) (C H N' V' H' : nat) (b0 b1 b2 : Z) :
  (C + H <= T)%nat ->
  (0 < V)%nat -> (0 < V')%nat ->
  let N := (T - C - H + 1)%nat in
  (N - 778 <= N')%nat ->
  exists (instances yv : ndarray F) (p t : list (pyitem F)),
    test_instances (array2 m off T V s0 s1) C H = Ok instances /\
    y instances C = Ok yv /\
    plot_series yv (mk_ndarray mp op [N'; V'; H'] [b0; b1; b2]) = Ok (p, t) /\
    (forall i k : nat, (i < N - 778)%nat -> (k < H)%nat ->
       exists x : F,
         get (array2 m off T V s0 s1)
             [Z.of_nat (i + C + k); Z.of_nat (V - 1)] = Ok x /\
         nth_error t (i * H + k) = Some (Scalar x)) /\
    (forall i k : nat, (i + 1 < N - 778)%nat -> (k + 1 < H)%nat ->
       nth_error t ((i + 1) * H + k) = nth_error t (i * H + (k + 1))).
Proof.
  intros Hlen HV HV' N HN'.
  assert (HN : (T + 1 - (C + H))%nat = N) by (unfold N; lia).
  set (t := flat_map (last_var_items m (off + Z.of_nat C * s0) V H s0 s1 s0)
                     (seq 0 (N - 778))).
  assert (Hnth : forall i k : nat, (i < N - 778)%nat -> (k < H)%nat ->
            nth_error t (i * H + k)
            = Some (Scalar (m (off + Z.of_nat (i + C + k) * s0
                               + Z.of_nat (V - 1) * s1)))).
  { intros i k Hi Hk. unfold t.
    rewrite (@nth_error_flat_map_blocks _ _ _ H
               (length_last_var_items m (off + Z.of_nat C * s0) V H s0 s1 s0)
               (seq 0 (N - 778)) i k i).
    - unfold last_var_items. rewrite nth_error_map.
      rewrite nth_error_nth' with (d := 0%nat) by (rewrite length_seq; lia).
      rewrite seq_nth by lia. cbn [option_map Nat.add].
      do 3 f_equal. rewrite !Nat2Z.inj_add. ring.
    - rewrite nth_error_nth' with (d := 0%nat) by (rewrite length_seq; lia).
      now rewrite seq_nth by lia.
    - exact Hk. }
  exists (mk_ndarray m off [N; V; (C + H)%nat] [s0; s1; s0]),
         (mk_ndarray m (off + Z.of_nat C * s0) [N; V; H] [s0; s1; s0]),
         (flat_map (last_var_items mp op V' H' b0 b1 b2) (seq 0 (N - 778))), t.
  split; [|split; [|split; [|split]]].
  - rewrite WindowFacts.test_instances_ok by exact Hlen. now rewrite HN.
  - apply WindowFacts.y_ok.
  - now apply plot_series_rows.
  - intros i k Hi Hk.
    exists (m (off + Z.of_nat (i + C + k) * s0 + Z.of_nat (V - 1) * s1)).
    split; [|now apply Hnth].
    unfold get, array2. rewrite addr2 by (unfold N in *; lia). reflexivity.
  - intros i k Hi Hk.
    rewrite !Hnth by lia. do 3 f_equal. lia.
Qed.

Lemma plotted_position_is_time_step_witness :
  exists (instances yv : ndarray Z) (p t : list (pyitem Z)),
    test_instances (array2 (fun z => z) 0 5 1 1 1) 2 1 = Ok instances /\
    y instances 2 = Ok yv /\
    plot_series yv (mk_ndarray (fun z => z) 0 [3%nat; 1%nat; 1%nat] [1; 1; 1])
    = Ok (p, t).
Proof.
  destruct (@plotted_position_is_time_step Z (fun z => z) (fun z => z) 0 0
              5 1 1 1 2 1 3 1 1 1 1 1
              ltac:(lia) ltac:(lia) ltac:(lia) ltac:(simpl; lia))
    as (inst & yv & p & t & H1 & H2 & H3 & _).
  exists inst, yv, p, t. repeat split; assumption.
Defined.

End PlotSeriesFacts.

(** ** Whole runs of the entry point *)

Module EntryPointFacts.

Import Np NpFacts Main.
Local Open Scope Z_scope.

Section Runs.

Variable E : Externals.

(** Lines 47-63 with everything succeeding: the run has constructed,
    predicted and printed, in this order, when it starts on the plot. *)
Lemma evaluate_until_plot (a : args E) (tr te : Dataset (float E))
    (w : world E) (m : Z -> float E) (off : Z) (T V : nat) (s0 s1 : Z)
    (g g' : rng_state E) (mdl : model E) (preds : ndarray (float E))
    (mse mae : float E) :
  let C := context_length a in
  let H := horizon a in
  let N := (T - C - H + 1)%nat in
  let Xv := mk_ndarray m off [N; V; C] [s0; s1; s0] in
  let yv := mk_ndarray m (off + Z.of_nat C * s0) [N; V; H] [s0; s1; s0] in
  data te = array2 m off T V s0 s1 ->
  (C + H <= T)%nat ->
  OLS E (data tr) C H (instance_norm a) (individual a) (alpha a) false
      (seed a) (max_train_N a) (rng w) = (g, Ok mdl) ->
  predict E mdl Xv g = (g', Ok preds) ->
  mean_squared_error E yv preds = Ok mse ->
  mean_absolute_error E yv preds = Ok mae ->
  evaluate a tr te w
  = bind (lift (plot_series yv preds))
         (fun pt => draw (fst pt) (snd pt))
         (mk_world g'
            (log w ++ [EvCallOLS E (seed a); EvCallPredict E Xv;
                       EvPrintSummary E (dataset a) (instance_norm a)
                         (individual a) (alpha a) C H mse mae;
                       EvPrintShapes E (shape preds) [N; V; H]])).
Proof.
  intros C H N Xv yv Hdata Hlen Hols Hpred Hmse Hmae.
  assert (HN : (T + 1 - (C + H))%nat = N) by (unfold N; lia).
  unfold evaluate, bind, emit, extern, lift. cbn [rng log].
  fold C H. rewrite Hols. rewrite Hdata.
  rewrite WindowFacts.test_instances_ok by exact Hlen.
  rewrite HN. rewrite WindowFacts.X_ok, WindowFacts.y_ok.
  fold Xv yv. cbn [rng log]. rewrite Hpred, Hmse, Hmae. cbn [rng log].
  rewrite <- !app_assoc. cbn [app]. unfold yv. cbn [shape].
  reflexivity.
Qed.

End Runs.

(** A configured seed outside [0, 2**32) is refused by [np.random.seed]:
    the run ends in [ValueError] before any data is loaded, with nothing
    observed and the random state as it was. *)
Theorem seed_out_of_range_stops_the_run (E : Externals) (a : args E) (s : Z)
    (w : world E) :
  seed a = Some s ->
  s < 0 \/ 2 ^ 32 <= s ->
  main a w = (w, Err ValueError).
Proof.
  intros Hseed Hrange. unfold main. unfold bind at 1.
  unfold housekeeping. rewrite Hseed. unfold np_random_seed.
  replace ((0 <=? s) && (s <? 2 ^ 32)) with false; [reflexivity|].
  symmetry. apply andb_false_iff.
  destruct Hrange as [Hneg | Hbig].
  - left. apply Z.leb_gt. exact Hneg.
  - right. apply Z.ltb_ge. exact Hbig.
Qed.

Lemma seed_out_of_range_stops_the_run_witness :
  main (toy_args 5 1 2 1 (Some (-1))) (toy_world 5 1 0)
  = (toy_world 5 1 0, Err ValueError).
Proof.
  apply (@seed_out_of_range_stops_the_run (toy_externals 5 1)
           (toy_args 5 1 2 1 (Some (-1))) (-1) (toy_world 5 1 0)).
  - reflexivity.
  - left. lia.
Defined.

(** A run in which every step succeeds, on data with at least one variable
    and predictions of the shape of [y]: it loads, constructs the model on
    the training split, predicts once, on the contexts of all [N] windows
    of the test split, prints the summary and the shapes, and draws the
    true series and then the predicted one, both of [(N-778) * H] values.
    The validation split is never used. *)
Theorem successful_run (E : Externals) (a : args E) (w w1 : world E)
    (tr va te : Dataset (float E)) (m mp : Z -> float E) (off op : Z)
    (T V : nat) (s0 s1 b0 b1 b2 : Z)
    (g1 g2 g3 : rng_state E) (mdl : model E) (mse mae : float E) :
  let C := context_length a in
  let H := horizon a in
  let N := (T - C - H + 1)%nat in
  let Xv := mk_ndarray m off [N; V; C] [s0; s1; s0] in
  let yv := mk_ndarray m (off + Z.of_nat C * s0) [N; V; H] [s0; s1; s0] in
  let preds := mk_ndarray mp op [N; V; H] [b0; b1; b2] in
  let t := flat_map (last_var_items m (off + Z.of_nat C * s0) V H s0 s1 s0)
                    (seq 0 (N - 778)) in
  let p := flat_map (last_var_items mp op V H b0 b1 b2) (seq 0 (N - 778)) in
  housekeeping a w = (w1, Ok tt) ->
  dataset_selector E (dataset a) C H (root a) (custom_csv_filename a)
    (custom_train_percentage a) (custom_test_percentage a) (rng w1)
  = (g1, Ok (tr, va, te)) ->
  data te = array2 m off T V s0 s1 ->
  (C + H <= T)%nat ->
  (0 < V)%nat ->
  OLS E (data tr) C H (instance_norm a) (individual a) (alpha a) false
      (seed a) (max_train_N a) g1 = (g2, Ok mdl) ->
  predict E mdl Xv g2 = (g3, Ok preds) ->
  mean_squared_error E yv preds = Ok mse ->
  mean_absolute_error E yv preds = Ok mae ->
  main a w
  = (mk_world g3
       (log w1 ++ [EvCallDatasetSelector E; EvCallOLS E (seed a);
                   EvCallPredict E Xv;
                   EvPrintSummary E (dataset a) (instance_norm a)
                     (individual a) (alpha a) C H mse mae;
                   EvPrintShapes E [N; V; H] [N; V; H];
                   EvPlot E "True values"%string ((N - 778) * H) t;
                   EvPlot E "Predicted values"%string ((N - 778) * H) p]),
     Ok tt).
Proof.
  intros C H N Xv yv preds t p Hhk Hsel Hdata Hlen HV Hols Hpred Hmse Hmae.
  unfold main. unfold bind at 1. rewrite Hhk.
  unfold bind at 1. unfold datasets_and_loaders, bind, emit, extern.
  cbn [rng log]. fold C H. rewrite Hsel. cbn [fst snd].
  rewrite (@evaluate_until_plot E a tr te
             (mk_world g1 (log w1 ++ [EvCallDatasetSelector E]))
             m off T V s0 s1 g2 g3 mdl preds mse mae Hdata Hlen Hols Hpred
             Hmse Hmae).
  fold C H N Xv yv.
  unfold bind, lift. unfold yv at 1. unfold preds at 1.
  rewrite PlotSeriesFacts.plot_series_rows by (try assumption; lia).
  fold p t. cbn [fst snd].
  assert (Ht : List.length t = ((N - 778) * H)%nat).
  { unfold t.
    now rewrite (@PlotSeriesFacts.length_flat_map_blocks _ _ _ H
                   (PlotSeriesFacts.length_last_var_items
                      m (off + Z.of_nat C * s0) V H s0 s1 s0)), length_seq. }
  assert (Hp : List.length p = ((N - 778) * H)%nat).
  { unfold p.
    now rewrite (@PlotSeriesFacts.length_flat_map_blocks _ _ _ H
                   (PlotSeriesFacts.length_last_var_items
                      mp op V H b0 b1 b2)), length_seq. }
  unfold draw, bind, emit, lift. cbn [rng log].
  rewrite Ht, Hp, Nat.eqb_refl. cbn [rng log].
  unfold preds. cbn [shape].
  rewrite <- !app_assoc. reflexivity.
Qed.

Lemma successful_run_witness :
  snd (main (toy_args 5 1 1 1 (Some 42)) (toy_world 5 1 0)) = Ok tt.
Proof.
  rewrite (@successful_run (toy_externals 5 1) (toy_args 5 1 1 1 (Some 42))
             (toy_world 5 1 0)
             (@mk_world (toy_externals 5 1) 42
                [EvNpRandomSeed (toy_externals 5 1) 42])
             (mk_Dataset (toy_series 5 1)) (mk_Dataset (toy_series 5 1))
             (mk_Dataset (toy_series 5 1))
             (fun z => z) (fun z => z) 0 0 5 1 1 1 1 1 1 42 42 42 tt 0 0).
  - reflexivity.
  - reflexivity.
  - reflexivity.
  - reflexivity.
  - simpl. lia.
  - lia.
  - reflexivity.
  - reflexivity.
  - reflexivity.
  - reflexivity.
Defined.

(** The plotting stage alone, on predictions with another horizon than
    [y] and more than 778 windows: the true series is drawn and the
    predicted series is refused, its length differing from that of the x
    axis. *)
Theorem horizon_mismatch_fails_at_the_plot (E : Externals)
    (my mp : Z -> float E) (oy op : Z) (N V H N' V' H' : nat)
    (a0 a1 a2 b0 b1 b2 : Z) (w : world E) :
  (0 < V)%nat -> (0 < V')%nat -> (N - 778 <= N')%nat ->
  (778 < N)%nat -> H <> H' ->
  exists p t : list (pyitem (float E)),
    plot_series (mk_ndarray my oy [N; V; H] [a0; a1; a2])
                (mk_ndarray mp op [N'; V'; H'] [b0; b1; b2]) = Ok (p, t) /\
    draw p t w
    = (mk_world (rng w)
         (log w ++ [EvPlot E "True values"%string ((N - 778) * H) t]),
       Err ValueError).
Proof.
  intros HV HV' HN' HN Hneq. eexists. eexists.
  split; [now apply PlotSeriesFacts.plot_series_rows|].
  unfold draw, bind, emit, lift. cbn [rng log].
  rewrite (@PlotSeriesFacts.length_flat_map_blocks _ _ _ H
             (PlotSeriesFacts.length_last_var_items my oy V H a0 a1 a2)).
  rewrite (@PlotSeriesFacts.length_flat_map_blocks _ _ _ H'
             (PlotSeriesFacts.length_last_var_items mp op V' H' b0 b1 b2)).
  rewrite length_seq.
  replace (((N - 778) * H' =? (N - 778) * H)%nat) with false; [reflexivity|].
  symmetry. apply Nat.eqb_neq. nia.
Qed.

Lemma horizon_mismatch_fails_at_the_plot_witness :
  exists p t : list (pyitem Z),
    plot_series (mk_ndarray (fun z => z) 0 [779%nat; 1%nat; 1%nat] [1; 1; 1])
                (mk_ndarray (fun z => z) 0 [779%nat; 1%nat; 2%nat] [1; 1; 1])
    = Ok (p, t) /\
    snd (@draw (toy_externals 5 1) p t (toy_world 5 1 0)) = Err ValueError.
Proof.
  destruct (@horizon_mismatch_fails_at_the_plot (toy_externals 5 1)
              (fun z => z) (fun z => z) 0 0 779 1 1 779 1 2 1 1 1 1 1 1
              (toy_world 5 1 0)
              ltac:(lia) ltac:(lia) ltac:(lia) ltac:(lia) ltac:(lia))
    as (p & t & Hps & Hdraw).
  exists p, t. split; [exact Hps|]. now rewrite Hdraw.
Defined.



End EntryPointFacts.
